(** * Learning Journal blog: content loader and search filter

    A shallow embedding of the two pieces of logic of the blog:

    - [utils/mdx.ts]: [getPostBySlug] and [getAllPosts], which read
      Markdown files with a frontmatter header from the posts directory;
    - [app/page.tsx]: [handleSearch], the in-memory filter of the home page.

    JavaScript built-ins the code calls ([String.prototype.replace] with the
    two literal regular expressions, [toLowerCase], [includes],
    [Array.prototype.sort], [Date]) are embedded next to the code that uses
    them.  The libraries [gray-matter] and [next-mdx-remote] are external
    collaborators and enter as section variables. *)

From Stdlib Require Import ZArith List Ascii String Sorted Permutation Lia Bool.
From stdpp Require Import gmap strings list.

Local Open Scope Z_scope.

(* ===================================================================== *)
(** ** JavaScript strings *)
(* ===================================================================== *)

(** Strings are sequences of 8-bit code units ([string] of the standard
    library); the suffix and substring operations do not look inside a code
    unit, and case mapping is the one of the ASCII letters. *)
Module JsString.

(** [s.endsWith(suffix)]: some tail of [s] is [suffix]. *)
Fixpoint endsWith (s suffix : string) : bool :=
  if String.eqb s suffix then true
  else match s with
       | EmptyString => false
       | String _ rest => endsWith rest suffix
       end.

(** [s] without its trailing [suffix]; [s] itself when [s] does not end
    with [suffix].  This is [s.replace(/<suffix>$/, '')] for a literal
    suffix: [$] (no [m] flag) anchors the only possible match at the end
    of the input. *)
Fixpoint dropSuffix (s suffix : string) : string :=
  if String.eqb s suffix then EmptyString
  else match s with
       | EmptyString => EmptyString
       | String c rest => String c (dropSuffix rest suffix)
       end.

(** [/\.mdx$/] as used by [getPostBySlug]. *)
Definition replace_mdx (slug : string) : string := dropSuffix slug ".mdx".

(** [/\.mdx?$/.test(path)]: the name ends in [.md] or in [.mdx]. *)
Definition test_mdx_opt (path : string) : bool :=
  endsWith path ".mdx" || endsWith path ".md".

(** [fileName.replace(/\.mdx?$/, '')]: the match is the trailing [.mdx]
    when there is one (the optional [x] is greedy and must be followed by
    the end of input), else the trailing [.md], else nothing. *)
Definition replace_mdx_opt (fileName : string) : string :=
  if endsWith fileName ".mdx" then dropSuffix fileName ".mdx"
  else dropSuffix fileName ".md".

(** [toLowerCase] on one code unit: the ASCII capitals [A]..[Z] move to
    [a]..[z]; every other code unit is kept. *)
Definition lower_ascii (c : ascii) : ascii :=
  let n := nat_of_ascii c in
  if ((65 <=? n)%nat && (n <=? 90)%nat)%bool then ascii_of_nat (n + 32) else c.

(** [s.toLowerCase()], code unit by code unit: what
    [String.prototype.toLowerCase] gives on ASCII strings.  Of the mapping of
    other characters the statements below use only that lowercasing twice is
    lowercasing once and that the empty string stays empty. *)
Fixpoint toLowerCase (s : string) : string :=
  match s with
  | EmptyString => EmptyString
  | String c rest => String (lower_ascii c) (toLowerCase rest)
  end.

(** [s.startsWith(t)]. *)
Fixpoint startsWith (s t : string) : bool :=
  match t, s with
  | EmptyString, _ => true
  | String _ _, EmptyString => false
  | String b t', String a s' => Ascii.eqb a b && startsWith s' t'
  end.

(** [s.includes(t)]: [t] occurs in [s] at some position. *)
Fixpoint includes (s t : string) : bool :=
  startsWith s t ||
  match s with
  | EmptyString => false
  | String _ rest => includes rest t
  end.

End JsString.

(* ===================================================================== *)
(** ** JavaScript numbers, dates and arrays *)
(* ===================================================================== *)

(** The numbers the loader computes with are time values: integers, or
    [NaN] for an invalid date.  [None] is [NaN]. *)
Definition number := option Z.

Module JsDate.

Definition msPerDay : Z := 86400000.

(** ECMAScript [DayFromYear]. *)
Definition DayFromYear (y : Z) : Z :=
  365 * (y - 1970) + (y - 1969) / 4 - (y - 1901) / 100 + (y - 1601) / 400.

Definition InLeapYear (y : Z) : bool :=
  ((y mod 4 =? 0) && negb (y mod 100 =? 0)) || (y mod 400 =? 0).

Definition DaysInMonth (y m : Z) : Z :=
  if m =? 2 then (if InLeapYear y then 29 else 28)
  else if (m =? 4) || (m =? 6) || (m =? 9) || (m =? 11) then 30
  else 31.

(** Days of the year that precede month [m] (1-based). *)
Fixpoint daysBefore (y : Z) (m : nat) : Z :=
  match m with
  | O => 0
  | S k => daysBefore y k + DaysInMonth y (Z.of_nat (S k))
  end.

(** ECMAScript [MakeDate(MakeDay(y, m - 1, d), 0)] for a calendar date. *)
Definition MakeDate (y m d : Z) : Z :=
  (DayFromYear y + daysBefore y (Z.to_nat (m - 1)) + (d - 1)) * msPerDay.

Definition digit (c : ascii) : option Z :=
  let n := nat_of_ascii c in
  if ((48 <=? n)%nat && (n <=? 57)%nat)%bool then Some (Z.of_nat (n - 48)) else None.

Definition digits2 (a b : ascii) : option Z :=
  match digit a, digit b with
  | Some x, Some y => Some (10 * x + y)
  | _, _ => None
  end.

Definition digits4 (a b c d : ascii) : option Z :=
  match digits2 a b, digits2 c d with
  | Some x, Some y => Some (100 * x + y)
  | _, _ => None
  end.

(** The date-only form [YYYY-MM-DD] of the ECMAScript date-time string
    format, read as UTC midnight.  [None] when the string is not of that
    form or names no calendar day. *)
Definition parseIsoDate (s : string) : option Z :=
  match s with
  | String y1 (String y2 (String y3 (String y4 (String "-"
    (String m1 (String m2 (String "-"
    (String d1 (String d2 EmptyString))))))))) =>
      match digits4 y1 y2 y3 y4, digits2 m1 m2, digits2 d1 d2 with
      | Some y, Some m, Some d =>
          if (1 <=? m) && (m <=? 12) && (1 <=? d) && (d <=? DaysInMonth y m)
          then Some (MakeDate y m d) else None
      | _, _, _ => None
      end
  | _ => None
  end.

(** ECMAScript [TimeClip]. *)
Definition TimeClip (t : Z) : number :=
  if Z.abs t <=? 8640000000000000 then Some t else None.

Section Parse.
(** What [Date.parse] does with a string that is not a date-only ISO
    string (the other ISO forms and the engine's own heuristics). *)
Variable legacyParse : string -> number.

Definition parse (s : string) : number :=
  match parseIsoDate s with
  | Some t => Some t
  | None => legacyParse s
  end.
End Parse.

End JsDate.

Module JsArray.

Section Sort.
Context {A : Type}.
(** The comparison function, [NaN] included. *)
Variable comparefn : A -> A -> number.

(** ECMAScript [SortCompare] once both elements are defined: a [NaN]
    from the comparison function counts as [+0]. *)
Definition SortCompare (x y : A) : Z :=
  match comparefn x y with
  | Some v => v
  | None => 0
  end.

(** [x] goes in front of the first element it does not compare greater
    than, so that elements that compare equal keep their order. *)
Fixpoint insert (x : A) (l : list A) : list A :=
  match l with
  | [] => [x]
  | y :: rest => if SortCompare x y <=? 0 then x :: y :: rest
                 else y :: insert x rest
  end.

(** [arr.sort(comparefn)]: a stable sort.  When the comparison function
    is not consistent (a [NaN] among the dates) the language leaves the
    order to the engine, and this is one such order. *)
Fixpoint sort (l : list A) : list A :=
  match l with
  | [] => []
  | x :: rest => insert x (sort rest)
  end.
End Sort.

(** [arr.some(p)]. *)
Definition some {A : Type} (p : A -> bool) (l : list A) : bool := existsb p l.

End JsArray.

(* ===================================================================== *)
(** ** utils/mdx.ts *)
(* ===================================================================== *)

Module Mdx.

(** The values of frontmatter keys in the content format: YAML scalars,
    timestamps ([Date] objects, by their time value) and lists of strings. *)
Inductive value : Type :=
| VNull
| VBool (b : bool)
| VNumber (n : Z)
| VString (s : string)
| VDate (tv : Z)
| VArray (items : list string).

(** [new Date(v).getTime()] for [v] the value of a property, [None] being
    [undefined]. *)
Definition Date_getTime (legacyParse : string -> number) (v : option value) : number :=
  match v with
  | None => None
  | Some VNull => Some 0
  | Some (VBool b) => Some (if b then 1 else 0)
  | Some (VNumber n) => JsDate.TimeClip n
  | Some (VString s) => JsDate.parse legacyParse s
  | Some (VDate tv) => Some tv
  | Some (VArray items) => JsDate.parse legacyParse (String.concat "," items)
  end.

(** Error codes of [fs]. *)
Inductive errno : Type := ENOENT | EISDIR | EACCES.

(** What the loader can throw: nothing in it catches an exception. *)
Inductive exn : Type :=
| FsError (code : errno) (path : string)
| YAMLException (reason : string)
| MdxCompileError (reason : string).

Inductive result (A : Type) : Type :=
| Ok (a : A)
| Throw (e : exn).
Arguments Ok {A} a.
Arguments Throw {A} e.

(** Sequencing of calls that may throw. *)
#[export] Instance result_bind : MBind result := fun A B k r =>
  match r with
  | Ok a => k a
  | Throw e => Throw e
  end.

(** [await Promise.all(promises)] over promises that are settled when they
    are created: the values in order, or the first rejection in order. *)
Fixpoint Promise_all {A : Type} (promises : list (result A)) : result (list A) :=
  match promises with
  | [] => Ok []
  | p :: rest =>
      match p with
      | Throw e => Throw e
      | Ok a => match Promise_all rest with
                | Ok l => Ok (a :: l)
                | Throw e => Throw e
                end
      end
  end.

(** An entry of the posts directory. *)
Inductive entry : Type :=
| File (content : string)
| Dir
| NoAccess.

(** The directory [POSTS_PATH]: its entries in the order [readdirSync]
    lists them.  Names are relative to [POSTS_PATH] and are single path
    segments, as the names [readdirSync] returns and the [slug] segment of
    the route [/posts/[slug]] are, so that [path.join] only prefixes the
    directory. *)
Definition Store := list (string * entry).

Definition readdirSync (st : Store) : list string := map fst st.

Fixpoint lookup_entry (name : string) (st : Store) : option entry :=
  match st with
  | [] => None
  | (n, e) :: rest => if String.eqb n name then Some e else lookup_entry name rest
  end.

(** [fs.readFileSync(path.join(POSTS_PATH, name), 'utf8')]. *)
Definition readFileSync (st : Store) (name : string) : result string :=
  match lookup_entry name st with
  | None => Throw (FsError ENOENT name)
  | Some (File content) => Ok content
  | Some Dir => Throw (FsError EISDIR name)
  | Some NoAccess => Throw (FsError EACCES name)
  end.

(** The object a post is at run time: the frontmatter keys and [slug].
    The cast [as PostMetadata] checks nothing. *)
Abbreviation data := (gmap string value).

(** [{ ...data, slug }]. *)
Definition with_slug (d : data) (slug : string) : data :=
  <["slug"%string := VString slug]> d.

Section Loader.
(** [matter] of gray-matter: the parsed header and the body, or the
    reason of the YAML error it throws. *)
Variable matter : string -> string + (data * string).
(** [serialize] of next-mdx-remote, with the plugins the code passes. *)
Variable MdxSource : Type.
Variable serialize : string -> data -> string + MdxSource.
Variable legacyParse : string -> number.

Definition call_matter (source : string) : result (data * string) :=
  match matter source with
  | inl reason => Throw (YAMLException reason)
  | inr parsed => Ok parsed
  end.

Definition call_serialize (content : string) (scope : data) : result MdxSource :=
  match serialize content scope with
  | inl reason => Throw (MdxCompileError reason)
  | inr src => Ok src
  end.

Definition getPostBySlug (st : Store) (slug : string) : result (MdxSource * data) :=
  let realSlug := JsString.replace_mdx slug in
  let filePath := realSlug +:+ ".mdx" in
  fileContent ← readFileSync st filePath;
  '(d, content) ← call_matter fileContent;
  mdxSource ← call_serialize content d;
  Ok (mdxSource, with_slug d realSlug).

(** The body of the [async (fileName) => ...] callback. *)
Definition loadSummary (st : Store) (fileName : string) : result data :=
  source ← readFileSync st fileName;
  '(d, _) ← call_matter source;
  Ok (with_slug d (JsString.replace_mdx_opt fileName)).

(** [(a, b) => new Date(b.date).getTime() - new Date(a.date).getTime()]:
    [NaN] as soon as one of the dates is invalid, else the difference of two
    integral time values, whose sign is that of the integer difference. *)
Definition byDateDesc (a b : data) : number :=
  match Date_getTime legacyParse (b !! "date"%string),
        Date_getTime legacyParse (a !! "date"%string) with
  | Some tb, Some ta => Some (tb - ta)
  | _, _ => None
  end.

Definition getAllPosts (st : Store) : result (list data) :=
  let files := readdirSync st in
  posts ← Promise_all
            (map (loadSummary st) (List.filter JsString.test_mdx_opt files));
  Ok (JsArray.sort byDateDesc posts).

(** [generateStaticParams] of [app/posts/[slug]/page.tsx]. *)
Definition generateStaticParams (st : Store) : result (list (option value)) :=
  posts ← getAllPosts st;
  Ok (map (fun post : data => post !! "slug"%string) posts).
End Loader.

End Mdx.

(* ===================================================================== *)
(** ** app/page.tsx *)
(* ===================================================================== *)

Module Home.

(** [interface PostMetadata]. *)
Record PostMetadata : Type := {
  title : string;
  date : string;
  description : string;
  slug : string;
  tags : list string
}.

(** The three [useState] cells of [Home]. *)
Record State : Type := {
  posts : list PostMetadata;
  filteredPosts : list PostMetadata;
  isLoading : bool
}.

(** The predicate [handleSearch] passes to [posts.filter]. *)
Definition matches (searchTerm : string) (post : PostMetadata) : bool :=
  let titleMatch := JsString.includes (JsString.toLowerCase (title post)) searchTerm in
  let descriptionMatch :=
    JsString.includes (JsString.toLowerCase (description post)) searchTerm in
  let tagsMatch :=
    JsArray.some (fun tag => JsString.includes (JsString.toLowerCase tag) searchTerm)
                 (tags post) in
  titleMatch || descriptionMatch || tagsMatch.

(** The local [filtered] of [handleSearch]: the spec's [filter(posts, query)]. *)
Definition filtered (ps : list PostMetadata) (query : string) : list PostMetadata :=
  let searchTerm := JsString.toLowerCase query in
  List.filter (matches searchTerm) ps.

Definition handleSearch (st : State) (query : string) : State :=
  {| posts := posts st;
     filteredPosts := filtered (posts st) query;
     isLoading := isLoading st |}.

End Home.

(** The rest of [Home]: the initial state, the effect that loads the posts
    and what the component returns. *)
Module HomeView.
Import Home.

(** [useState([])], [useState([])], [useState(true)]. *)
Definition initial : State :=
  {| posts := []; filteredPosts := []; isLoading := true |}.

(** [fetchPosts], given what [await getAllPosts()] settles to.  On a
    rejection the three setters after the [await] do not run, and nothing
    catches the rejection. *)
Definition fetchPosts (st : State) (settled : Mdx.result (list PostMetadata)) : State :=
  match settled with
  | Mdx.Ok allPosts =>
      {| posts := allPosts; filteredPosts := allPosts; isLoading := false |}
  | Mdx.Throw _ => st
  end.

(** One [<article>] of the list. *)
Record Card : Type := {
  key : string;
  href : string;
  heading : string;
  posted : string;
  summary : string;
  chips : list string
}.

Definition card (post : PostMetadata) : Card :=
  {| key := slug post;
     href := "/posts/" +:+ slug post;
     heading := title post;
     posted := "Posted on " +:+ date post;
     summary := description post;
     chips := map (fun tag => "#" +:+ tag) (tags post) |}.

(** What [Home] returns, without the fixed heading and the search bar. *)
Inductive View : Type :=
| Loading
| NoPostsFound
| PostList (cards : list Card).

Definition render (st : State) : View :=
  if isLoading st then Loading
  else if (length (filteredPosts st) =? 0)%nat then NoPostsFound
  else PostList (map card (filteredPosts st)).

(** The queries the search bar sends, one call of [handleSearch] each. *)
Definition searches (st : State) (queries : list string) : State :=
  fold_left handleSearch queries st.

End HomeView.

(* ===================================================================== *)
(** ** app/posts/[slug]/page.tsx *)
(* ===================================================================== *)

Module PostPage.
Import Mdx.

(** What [Post] can throw: what the loader throws, or the [TypeError] of
    [metadata.tags.map] on a value that is no array. *)
Inductive failure : Type :=
| Thrown (e : exn)
| TypeError.

(** The [<article>] of the page: the children of its elements. *)
Record Article (MdxSource : Type) : Type := {
  heading : option value;
  posted : option value;
  chips : list string;
  body : MdxSource
}.
Arguments heading {MdxSource} _.
Arguments posted {MdxSource} _.
Arguments chips {MdxSource} _.
Arguments body {MdxSource} _.

(** [metadata.tags.map((tag) => <span key={tag}>#{tag}</span>)]. *)
Definition tag_chips (tags : option value) : failure + list string :=
  match tags with
  | Some (VArray items) => inr (map (fun tag => "#" +:+ tag) items)
  | _ => inl TypeError
  end.

Section Page.
Variable matter : string -> string + (data * string).
Variable MdxSource : Type.
Variable serialize : string -> data -> string + MdxSource.

Definition Post (st : Store) (slug : string) : failure + Article MdxSource :=
  match getPostBySlug matter MdxSource serialize st slug with
  | Throw e => inl (Thrown e)
  | Ok (mdxSource, metadata) =>
      match tag_chips (metadata !! "tags"%string) with
      | inl f => inl f
      | inr spans =>
          inr {| heading := metadata !! "title"%string;
                 posted := metadata !! "date"%string;
                 chips := spans;
                 body := mdxSource |}
      end
  end.
End Page.

End PostPage.

(* ===================================================================== *)
(** ** The posts directory as the file system has it *)
(* ===================================================================== *)

(** [Mdx.Store] is a directory that exists and can be listed.  The path
    [POSTS_PATH] may also lead to nothing, or to something that cannot be
    listed; [fs.readdirSync(POSTS_PATH)], the first statement of
    [getAllPosts], then throws and nothing else of the function runs. *)
Module PostsPath.
Import Mdx.

Inductive t : Type :=
| Unlistable (code : errno)
| Listable (st : Store).

(** [fs.readdirSync(POSTS_PATH)]; the directory itself is the empty
    relative path. *)
Definition readdirSync (p : t) : result (list string) :=
  match p with
  | Unlistable code => Throw (FsError code "")
  | Listable st => Ok (Mdx.readdirSync st)
  end.

Definition getAllPosts (matter : string -> string + (data * string))
    (legacyParse : string -> number) (p : t) : result (list data) :=
  match p with
  | Unlistable code => Throw (FsError code "")
  | Listable st => Mdx.getAllPosts matter legacyParse st
  end.

End PostsPath.

(* ===================================================================== *)
(** ** Vocabulary of the statements *)
(* ===================================================================== *)

(** [t] occurs in [s]. *)
Definition substring_of (t s : string) : Prop :=
  exists pre post, s = pre +:+ t +:+ post.

(** [x] is listed before [y] in a list in descending order of [key]. *)
Definition descending {A : Type} (key : A -> Z) (x y : A) : Prop := key y <= key x.

(** The time value of a post's [date], when it has one. *)
Definition dated (legacyParse : string -> number) (post : gmap string Mdx.value) (t : Z) : Prop :=
  Mdx.Date_getTime legacyParse (post !! "date"%string) = Some t.

(** Most recent first: the dates are valid and do not increase. *)
Definition newer_or_same (legacyParse : string -> number)
    (a b : gmap string Mdx.value) : Prop :=
  exists ta tb, dated legacyParse a ta /\ dated legacyParse b tb /\ tb <= ta.



(** The [slug] property of a post object. *)
Definition slug_of (post : gmap string Mdx.value) : option Mdx.value :=
  post !! "slug"%string.

(** The slug given to the name [n] of a listed file. *)
Definition listed_slug (n : string) : option Mdx.value :=
  Some (Mdx.VString (JsString.replace_mdx_opt n)).

(** The post has a valid date, and its time value is [t]. *)
Definition has_time (legacyParse : string -> number) (t : Z)
    (post : gmap string Mdx.value) : bool :=
  match Mdx.Date_getTime legacyParse (post !! "date"%string) with
  | Some t' => t' =? t
  | None => false
  end.

(** A calendar day. *)
Definition calendar_day (y m d : Z) : Prop :=
  1 <= m <= 12 /\ 1 <= d <= JsDate.DaysInMonth y m.

(** The day [(y1, m1, d1)] is before the day [(y2, m2, d2)]. *)
Definition day_before (y1 m1 d1 y2 m2 d2 : Z) : Prop :=
  y1 < y2 \/ (y1 = y2 /\ (m1 < m2 \/ (m1 = m2 /\ d1 < d2))).

(** The names of a directory that the listing and the lookup agree on:
    [s.mdx] with [s] not itself ending in [.mdx]. *)
Definition plain_mdx (name : string) : Prop :=
  JsString.endsWith name ".mdx" = true /\
  JsString.endsWith (JsString.replace_mdx_opt name) ".mdx" = false.

(* ===================================================================== *)
(** ** Sample content *)
(* ===================================================================== *)

(** Two posts, as the repository's content directory holds them, and the
    behaviour of the collaborators on them. *)
Module Sample.
Import Mdx.

Definition first_header : gmap string value :=
  <["title"%string := VString "My First Learning Experience"]>
  (<["date"%string := VString "2024-03-15"]>
  (<["description"%string := VString "A preview of my first blog post"]>
  (<["tags"%string := VArray ["coding"; "learning"]%string]>
  (<["slug"%string := VString "from-the-header"]> ∅)))).

Definition gradle_header : gmap string value :=
  <["title"%string := VString "Building a Custom Gradle Plugin for Automated Library Releases"]>
  (<["date"%string := VString "2024-01-19"]>
  (<["description"%string := VString "How I simplified library publishing"]>
  (<["tags"%string := VArray ["gradle"; "kotlin"]%string]> ∅))).

(** [matter] on three file contents: two well-formed ones and one whose
    header does not parse. *)
Definition matter (source : string) : string + (gmap string value * string) :=
  if String.eqb source "first" then inr (first_header, "# First"%string)
  else if String.eqb source "gradle" then inr (gradle_header, "# Gradle"%string)
  else inl "bad indentation of a mapping entry"%string.

Definition serialize (content : string) (scope : gmap string value) : string + string :=
  inr content.

Definition legacyParse (s : string) : number := None.

Definition store : Store :=
  [("gradle-plugin.mdx"%string, File "gradle"); ("first-post.mdx"%string, File "first")].

Definition first_post : gmap string value := with_slug first_header "first-post".
Definition gradle_post : gmap string value := with_slug gradle_header "gradle-plugin".

(** A directory that has the same post under both extensions. *)
Definition twins : Store :=
  [("a.md"%string, File "first"); ("a.mdx"%string, File "gradle")].

(** A directory with an unreadable file listed before a malformed one. *)
Definition unreadable_then_malformed : Store :=
  [("a.mdx"%string, NoAccess); ("b.mdx"%string, File "broken")].

(** A directory whose second file is malformed. *)
Definition malformed_second : Store :=
  [("first-post.mdx"%string, File "first"); ("b.mdx"%string, File "broken")].

(** The two posts as the home page holds them. *)
Definition first_summary : Home.PostMetadata :=
  {| Home.title := "My First Learning Experience";
     Home.date := "2024-03-15";
     Home.description := "A preview of my first blog post";
     Home.slug := "first-post";
     Home.tags := ["coding"; "learning"]%string |}.

Definition gradle_summary : Home.PostMetadata :=
  {| Home.title := "Building a Custom Gradle Plugin for Automated Library Releases";
     Home.date := "2024-01-19";
     Home.description := "How I simplified library publishing";
     Home.slug := "gradle-plugin";
     Home.tags := ["gradle"; "kotlin"]%string |}.

(** A post whose header has no [tags]. *)
Definition untagged_header : gmap string Mdx.value :=
  <["title"%string := Mdx.VString "Untagged"]>
  (<["date"%string := Mdx.VString "2024-02-01"]> ∅).

Definition matter_untagged (source : string) : string + (gmap string Mdx.value * string) :=
  if String.eqb source "untagged" then inr (untagged_header, "# Untagged"%string)
  else matter source.

Definition store_untagged : Mdx.Store :=
  [("untagged.mdx"%string, Mdx.File "untagged")].

(** The sample directory with entries that are no posts. *)
Definition store_with_others : Mdx.Store :=
  [("README.txt"%string, Mdx.File "broken"); ("gradle-plugin.mdx"%string, Mdx.File "gradle");
   ("assets"%string, Mdx.Dir); ("first-post.mdx"%string, Mdx.File "first");
   (".DS_Store"%string, Mdx.NoAccess)].

End Sample.

(* ===================================================================== *)
(** * Properties *)
(* ===================================================================== *)

(** ** Strings *)

Section StringFacts.
Import JsString.
#[local] Arguments String.append !_ _ / : simpl nomatch.
#[local] Arguments String.eqb : simpl never.
#[local] Arguments Ascii.eqb : simpl never.

Lemma length_append (p x : string) :
  String.length (p +:+ x) = (String.length p + String.length x)%nat.
Proof. induction p as [|c p IH]; simpl; [reflexivity | now rewrite IH]. Qed.

Lemma append_nil_r (p : string) : p +:+ "" = p.
Proof. induction p as [|c p IH]; simpl; [reflexivity | now rewrite IH]. Qed.

Lemma append_assoc (p q r : string) : (p +:+ q) +:+ r = p +:+ (q +:+ r).
Proof. induction p as [|c p IH]; simpl; [reflexivity | now rewrite IH]. Qed.

(** A string that carries something in front of [x] is not [x]. *)
Lemma cons_append_neq (c : ascii) (p x : string) : String c (p +:+ x) <> x.
Proof.
  intros H. apply (f_equal String.length) in H. simpl in H.
  rewrite length_append in H. lia.
Qed.

Lemma append_inv_r (p q x : string) : p +:+ x = q +:+ x -> p = q.
Proof.
  revert q. induction p as [|c p IH]; intros [|d q] H; simpl in H.
  - reflexivity.
  - symmetry in H. now apply cons_append_neq in H.
  - now apply cons_append_neq in H.
  - injection H as -> H. f_equal. now apply IH.
Qed.

Lemma endsWith_append (p x : string) : endsWith (p +:+ x) x = true.
Proof.
  induction p as [|c p IH]; simpl.
  - destruct x; simpl; rewrite ?String.eqb_refl; reflexivity.
  - destruct (String.eqb (String c (p +:+ x)) x); [reflexivity | exact IH].
Qed.

Lemma endsWith_inv (s x : string) : endsWith s x = true -> exists p, s = p +:+ x.
Proof.
  induction s as [|c s IH]; simpl.
  - destruct (String.eqb_spec "" x) as [<- | _]; [| discriminate].
    intros _. now exists ""%string.
  - destruct (String.eqb_spec (String c s) x) as [<- | _].
    + intros _. now exists ""%string.
    + intros H. destruct (IH H) as [p ->]. now exists (String c p).
Qed.

Lemma endsWith_spec (s x : string) : endsWith s x = true <-> exists p, s = p +:+ x.
Proof.
  split; [apply endsWith_inv | intros [p ->]; apply endsWith_append].
Qed.

Lemma dropSuffix_append (p x : string) : dropSuffix (p +:+ x) x = p.
Proof.
  induction p as [|c p IH]; simpl.
  - destruct x; simpl; rewrite ?String.eqb_refl; reflexivity.
  - destruct (String.eqb_spec (String c (p +:+ x)) x) as [E | _].
    + now apply cons_append_neq in E.
    + now rewrite IH.
Qed.

Lemma dropSuffix_id (s x : string) : endsWith s x = false -> dropSuffix s x = s.
Proof.
  induction s as [|c s IH]; simpl.
  - now destruct (String.eqb "" x).
  - destruct (String.eqb (String c s) x); [discriminate |].
    intros H. now rewrite IH.
Qed.

(** The two extensions exclude each other at the end of a name. *)
Lemma md_not_mdx (p q : string) : p +:+ ".md" <> q +:+ ".mdx".
Proof.
  revert q. induction p as [|c p IH]; intros q H.
  - destruct q as [|? [|? [|? [|? q]]]]; simpl in H; discriminate.
  - destruct q as [|d q]; simpl in H.
    + injection H as _ H.
      destruct p as [|? [|? [|? [|? p]]]]; simpl in H; discriminate.
    + injection H as _ H. now apply IH in H.
Qed.

Lemma endsWith_md_mdx (s : string) :
  endsWith s ".mdx" = true -> endsWith s ".md" = false.
Proof.
  intros H. destruct (endsWith s ".md") eqn:E; [| reflexivity].
  apply endsWith_inv in H as [q ->]. apply endsWith_inv in E as [p E].
  symmetry in E. now apply md_not_mdx in E.
Qed.

Lemma replace_mdx_append (s : string) : replace_mdx (s +:+ ".mdx") = s.
Proof. apply dropSuffix_append. Qed.

Lemma replace_mdx_opt_mdx (s : string) : replace_mdx_opt (s +:+ ".mdx") = s.
Proof.
  unfold replace_mdx_opt. rewrite endsWith_append. apply dropSuffix_append.
Qed.

Lemma replace_mdx_opt_md (s : string) : replace_mdx_opt (s +:+ ".md") = s.
Proof.
  unfold replace_mdx_opt.
  destruct (endsWith (s +:+ ".md") ".mdx") eqn:E.
  - apply endsWith_inv in E as [q E]. now apply md_not_mdx in E.
  - apply dropSuffix_append.
Qed.

(** A listed name is its slug followed by one of the two extensions. *)
Lemma test_mdx_opt_inv (name : string) :
  test_mdx_opt name = true ->
  name = replace_mdx_opt name +:+ ".mdx" \/ name = replace_mdx_opt name +:+ ".md".
Proof.
  unfold test_mdx_opt, replace_mdx_opt. intros H.
  destruct (endsWith name ".mdx") eqn:E.
  - left. apply endsWith_inv in E as [p ->]. now rewrite dropSuffix_append.
  - right. simpl in H. apply endsWith_inv in H as [p ->].
    now rewrite dropSuffix_append.
Qed.

Lemma lower_ascii_idem (c : ascii) : lower_ascii (lower_ascii c) = lower_ascii c.
Proof. destruct c as [[] [] [] [] [] [] [] []]; reflexivity. Qed.

Lemma toLowerCase_idem (s : string) : toLowerCase (toLowerCase s) = toLowerCase s.
Proof.
  induction s as [|c s IH]; simpl; [reflexivity |].
  now rewrite lower_ascii_idem, IH.
Qed.

Lemma startsWith_spec (s t : string) :
  startsWith s t = true <-> exists post, s = t +:+ post.
Proof.
  revert s. induction t as [|b t IH]; intros s; simpl.
  - split; [intros _; now exists s | intros _; now destruct s].
  - destruct s as [|a s].
    + split; [discriminate | intros [post H]; discriminate].
    + simpl. rewrite andb_true_iff, IH. split.
      * intros [E [post ->]]. apply Ascii.eqb_eq in E as ->. now exists post.
      * intros [post H]. injection H as -> ->.
        split; [apply Ascii.eqb_refl | now exists post].
Qed.

(** [includes] is the substring relation. *)
Lemma includes_unfold (s t : string) :
  includes s t =
  startsWith s t || match s with
                    | EmptyString => false
                    | String _ rest => includes rest t
                    end.
Proof. now destruct s. Qed.

(** [includes] is the substring relation. *)
Lemma includes_spec (s t : string) :
  includes s t = true <-> exists pre post, s = pre +:+ t +:+ post.
Proof.
  induction s as [|c s IH]; rewrite includes_unfold, orb_true_iff, startsWith_spec.
  - split.
    + intros [[post H] | H]; [now exists ""%string, post | discriminate].
    + intros [[|d pre] [post H]]; simpl in H; [left; now exists post | discriminate].
  - rewrite IH. split.
    + intros [[post H] | [pre [post H]]].
      * now exists ""%string, post.
      * exists (String c pre), post. simpl. now rewrite H.
    + intros [[|d pre] [post H]]; simpl in H.
      * left. now exists post.
      * right. injection H as _ H. now exists pre, post.
Qed.

Lemma includes_empty (s : string) : includes s "" = true.
Proof. destruct s; reflexivity. Qed.

End StringFacts.

(** ** [Array.prototype.sort] *)

Section SortFacts.
Import JsArray.
Context {A : Type} (comparefn : A -> A -> number).

Lemma insert_perm (x : A) (l : list A) : Permutation (insert comparefn x l) (x :: l).
Proof.
  induction l as [|y l IH]; simpl; [reflexivity |].
  destruct (SortCompare comparefn x y <=? 0); [reflexivity |].
  rewrite IH. apply perm_swap.
Qed.

(** Sorting rearranges: no element is lost, added or duplicated. *)
Lemma sort_perm (l : list A) : Permutation (sort comparefn l) l.
Proof.
  induction l as [|x l IH]; simpl; [reflexivity |].
  rewrite insert_perm. now constructor.
Qed.

(** A list that is already in order is left as it is: elements that
    compare equal keep their relative order. *)
Lemma sort_sorted_id (l : list A) :
  StronglySorted (fun x y => SortCompare comparefn x y <= 0) l ->
  sort comparefn l = l.
Proof.
  induction 1 as [|x l Hs IH Hx]; simpl; [reflexivity |].
  rewrite IH. destruct Hx as [|y l Hxy _]; simpl; [reflexivity |].
  apply Z.leb_le in Hxy. now rewrite Hxy.
Qed.

Section ByKey.
(** The comparison function is [key y - key x] on the elements that
    satisfy [P]: a consistent comparison that orders by descending key. *)
Variable key : A -> Z.
Variable P : A -> Prop.
Hypothesis comparefn_key :
  forall x y, P x -> P y -> comparefn x y = Some (key y - key x).

Lemma insert_desc (x : A) (l : list A) :
  P x -> Forall P l ->
  StronglySorted (descending key) l -> StronglySorted (descending key) (insert comparefn x l).
Proof.
  intros Px Pl Hs. induction Hs as [|y l Hs IH Hy]; simpl.
  - repeat constructor.
  - apply Forall_cons in Pl as [Py Pl].
    unfold SortCompare. rewrite (comparefn_key x y Px Py).
    destruct (Z.leb_spec (key y - key x) 0) as [Hle | Hgt].
    + constructor; [now constructor |].
      constructor; [unfold descending; lia |].
      eapply List.Forall_impl; [| exact Hy]. unfold descending. intros z Hz. lia.
    + constructor; [now apply IH |].
      eapply Permutation_Forall; [symmetry; apply insert_perm |].
      constructor; [unfold descending; lia | exact Hy].
Qed.

Lemma sort_desc (l : list A) :
  Forall P l -> StronglySorted (descending key) (sort comparefn l).
Proof.
  induction l as [|x l IH]; simpl; intros Pl; [constructor |].
  apply Forall_cons in Pl as [Px Pl].
  apply insert_desc; [exact Px | | now apply IH].
  eapply Permutation_Forall; [symmetry; apply sort_perm | exact Pl].
Qed.

End ByKey.
End SortFacts.

(** ** The posts directory *)

Section StoreFacts.
Import Mdx.

Lemma lookup_entry_None (name : string) (st : Store) :
  lookup_entry name st = None <-> ~ In name (readdirSync st).
Proof.
  induction st as [|[n e] st IH]; simpl; [tauto |].
  destruct (String.eqb_spec n name) as [-> | Hne].
  - split; [discriminate | intros H; exfalso; apply H; now left].
  - rewrite IH. tauto.
Qed.

Lemma lookup_entry_In (name : string) (e : entry) (st : Store) :
  List.NoDup (readdirSync st) -> In (name, e) st -> lookup_entry name st = Some e.
Proof.
  induction st as [|[n e'] st IH]; simpl; [tauto |].
  intros Hnd [H | H].
  - injection H as -> ->. now rewrite String.eqb_refl.
  - apply NoDup_cons_iff in Hnd as [Hn Hnd].
    destruct (String.eqb_spec n name) as [-> | _]; [| now apply IH].
    exfalso. apply Hn. change (In (fst (name, e)) (map fst st)). now apply in_map.
Qed.


Lemma readFileSync_file (st : Store) (name content : string) :
  List.NoDup (readdirSync st) -> In (name, File content) st ->
  readFileSync st name = Ok content.
Proof.
  intros Hnd H. unfold readFileSync. now rewrite (lookup_entry_In _ _ _ Hnd H).
Qed.

(** ** [Promise.all] *)

Lemma Promise_all_Ok {A : Type} (promises : list (result A)) (values : list A) :
  Promise_all promises = Ok values <-> promises = map Ok values.
Proof.
  revert values. induction promises as [|p ps IH]; intros values; simpl.
  - split.
    + intros H. injection H as <-. reflexivity.
    + destruct values; [reflexivity | discriminate].
  - destruct p as [a | e].
    + destruct (Promise_all ps) as [l | e'] eqn:E.
      * split.
        -- intros H. injection H as <-. simpl. f_equal. now apply IH.
        -- destruct values as [|v vs]; [discriminate |]. simpl.
           intros H. injection H as -> H. apply IH in H. now injection H as ->.
      * split; [discriminate |].
        destruct values as [|v vs]; [discriminate |]. simpl.
        intros H. injection H as _ H. apply IH in H. discriminate.
    + split; [discriminate |]. destruct values; discriminate.
Qed.

(** The first rejection, in the order of the array, is the one that
    [Promise.all] rejects with. *)
Lemma Promise_all_first_throw {A : Type} (values : list A) (e : exn)
    (rest : list (result A)) :
  Promise_all (map Ok values ++ Throw e :: rest) = Throw e.
Proof.
  induction values as [|v vs IH]; simpl; [reflexivity | now rewrite IH].
Qed.

(** One rejection is enough for the whole to reject. *)
Lemma Promise_all_throws {A : Type} (promises : list (result A)) (e : exn) :
  In (Throw e) promises -> exists e', Promise_all promises = Throw e'.
Proof.
  induction promises as [|p ps IH]; simpl; [tauto |].
  intros [-> | H]; [now exists e |].
  destruct p as [a | e0]; [| now exists e0].
  destruct (IH H) as [e' ->]. now exists e'.
Qed.

Lemma map_Ok_inj {A : Type} (l l' : list A) :
  map (@Ok A) l = map Ok l' -> l = l'.
Proof.
  revert l'. induction l as [|x l IH]; intros [|y l'] H; try discriminate.
  - reflexivity.
  - simpl in H. injection H as -> H. f_equal. now apply IH.
Qed.

End StoreFacts.

(** ** The loader *)

Section LoaderFacts.
Import Mdx.
Variable matter : string -> string + (data * string).
Variable MdxSource : Type.
Variable serialize : string -> data -> string + MdxSource.
Variable legacyParse : string -> number.

Lemma slug_of_with_slug (d : data) (s : string) :
  slug_of (with_slug d s) = Some (VString s).
Proof. unfold slug_of, with_slug. apply lookup_insert_eq. Qed.

Lemma date_with_slug (d : data) (s : string) :
  with_slug d s !! "date"%string = d !! "date"%string.
Proof. unfold with_slug. by apply lookup_insert_ne. Qed.

Lemma loadSummary_inv (st : Store) (n : string) (d : data) :
  loadSummary matter st n = Ok d ->
  exists content d0 body,
    readFileSync st n = Ok content /\ matter content = inr (d0, body) /\
    d = with_slug d0 (JsString.replace_mdx_opt n).
Proof.
  unfold loadSummary, call_matter.
  destruct (readFileSync st n) as [content | e] eqn:Er; simpl; [| discriminate].
  destruct (matter content) as [r | [d0 body]] eqn:Em; simpl; [discriminate |].
  intros H. injection H as <-. now exists content, d0, body.
Qed.

Lemma loadSummary_file (st : Store) (n content : string) (d0 : data) (body : string) :
  readFileSync st n = Ok content -> matter content = inr (d0, body) ->
  loadSummary matter st n = Ok (with_slug d0 (JsString.replace_mdx_opt n)).
Proof.
  intros Hr Hm. unfold loadSummary, call_matter. rewrite Hr. simpl. now rewrite Hm.
Qed.

Lemma loadSummary_malformed (st : Store) (n content reason : string) :
  readFileSync st n = Ok content -> matter content = inl reason ->
  loadSummary matter st n = Throw (YAMLException reason).
Proof.
  intros Hr Hm. unfold loadSummary, call_matter. rewrite Hr. simpl. now rewrite Hm.
Qed.

Lemma loaded_slugs (st : Store) (names : list string) (loaded : list data) :
  map (loadSummary matter st) names = map Ok loaded ->
  map slug_of loaded = map listed_slug names.
Proof.
  revert loaded. induction names as [|n names IH]; intros [|d loaded] H;
    try discriminate; [reflexivity |].
  simpl in H. injection H as Hn H. simpl. f_equal; [| now apply IH].
  apply loadSummary_inv in Hn as (c & d0 & body & _ & _ & ->).
  apply slug_of_with_slug.
Qed.

Lemma getAllPosts_inv (st : Store) (posts : list data) :
  getAllPosts matter legacyParse st = Ok posts ->
  exists loaded,
    map (loadSummary matter st) (List.filter JsString.test_mdx_opt (readdirSync st))
      = map Ok loaded /\
    posts = JsArray.sort (byDateDesc legacyParse) loaded.
Proof.
  unfold getAllPosts.
  destruct (Promise_all _) as [loaded | e] eqn:E; simpl; [| discriminate].
  intros H. injection H as <-. exists loaded. split; [| reflexivity].
  now apply Promise_all_Ok.
Qed.

Lemma getAllPosts_loaded (st : Store) (loaded : list data) :
  map (loadSummary matter st) (List.filter JsString.test_mdx_opt (readdirSync st))
    = map Ok loaded ->
  getAllPosts matter legacyParse st = Ok (JsArray.sort (byDateDesc legacyParse) loaded).
Proof.
  intros H. apply Promise_all_Ok in H. unfold getAllPosts. now rewrite H.
Qed.

Lemma getAllPosts_slugs (st : Store) (posts : list data) :
  getAllPosts matter legacyParse st = Ok posts ->
  Permutation (map slug_of posts)
    (map listed_slug (List.filter JsString.test_mdx_opt (readdirSync st))).
Proof.
  intros H. apply getAllPosts_inv in H as (loaded & Hl & ->).
  rewrite <- (loaded_slugs _ _ _ Hl). apply Permutation_map, sort_perm.
Qed.

Lemma getPostBySlug_inv (st : Store) (slug : string) (src : MdxSource) (md : data) :
  getPostBySlug matter MdxSource serialize st slug = Ok (src, md) ->
  exists content d body,
    readFileSync st (JsString.replace_mdx slug +:+ ".mdx") = Ok content /\
    matter content = inr (d, body) /\ serialize body d = inr src /\
    md = with_slug d (JsString.replace_mdx slug).
Proof.
  unfold getPostBySlug, call_matter, call_serialize.
  destruct (readFileSync st _) as [content | e] eqn:Er; simpl; [| discriminate].
  destruct (matter content) as [r | [d body]] eqn:Em; simpl; [discriminate |].
  destruct (serialize body d) as [r | src'] eqn:Es; simpl; [discriminate |].
  intros H. injection H as <- <-. now exists content, d, body.
Qed.

Lemma getPostBySlug_file (st : Store) (slug content : string) (d : data)
    (body : string) (src : MdxSource) :
  readFileSync st (JsString.replace_mdx slug +:+ ".mdx") = Ok content ->
  matter content = inr (d, body) -> serialize body d = inr src ->
  getPostBySlug matter MdxSource serialize st slug
    = Ok (src, with_slug d (JsString.replace_mdx slug)).
Proof.
  intros Hr Hm Hs. unfold getPostBySlug, call_matter, call_serialize.
  rewrite Hr. simpl. rewrite Hm. simpl. now rewrite Hs.
Qed.

End LoaderFacts.

(** ** Claims about the loader *)

Section LoaderClaims.
Import Mdx.

(** Outside the two corner cases of the extension handling, the round trip
    holds: a file [s.mdx] is listed under the slug [s], and [getPostBySlug s]
    reads that very file and returns the same metadata. *)
Lemma roundtrip_mdx matter MdxSource serialize (st : Store)
    (s content : string) (d : data) (body : string) (src : MdxSource) :
  List.NoDup (readdirSync st) -> In (s +:+ ".mdx", File content) st ->
  JsString.endsWith s ".mdx" = false ->
  matter content = inr (d, body) -> serialize body d = inr src ->
  JsString.test_mdx_opt (s +:+ ".mdx") = true /\
  loadSummary matter st (s +:+ ".mdx") = Ok (with_slug d s) /\
  getPostBySlug matter MdxSource serialize st (JsString.replace_mdx_opt (s +:+ ".mdx"))
    = Ok (src, with_slug d s).
Proof.
  intros Hnd Hin Hs Hm Hser.
  pose proof (readFileSync_file _ _ _ Hnd Hin) as Hr.
  rewrite replace_mdx_opt_mdx. split; [| split].
  - unfold JsString.test_mdx_opt. now rewrite endsWith_append.
  - rewrite (loadSummary_file matter _ _ _ _ _ Hr Hm).
    now rewrite replace_mdx_opt_mdx.
  - assert (Hreal : JsString.replace_mdx s = s) by now apply dropSuffix_id.
    rewrite <- Hreal at 2.
    apply (getPostBySlug_file matter MdxSource serialize st s content d body src);
      [now rewrite Hreal | exact Hm | exact Hser].
Qed.

(** C1, at the input where it fails: a directory that holds [notes.md].
    [getAllPosts] lists the file under the slug [notes]; [getPostBySlug]
    then looks for [notes.mdx] and throws [ENOENT]. *)
Theorem md_file_listed_but_not_resolved matter MdxSource serialize legacyParse
    (content : string) :
  let st : Store := [("notes.md"%string, File content)] in
  getAllPosts matter legacyParse st
    = match matter content with
      | inl reason => Throw (YAMLException reason)
      | inr (d, _) => Ok [with_slug d "notes"]
      end /\
  getPostBySlug matter MdxSource serialize st "notes"
    = Throw (FsError ENOENT "notes.mdx").
Proof.
  split.
  - unfold getAllPosts, loadSummary, call_matter. simpl.
    now destruct (matter content) as [r | [d body]].
  - reflexivity.
Qed.



Lemma StronglySorted_on {A : Type} (P : A -> Prop) (R R' : A -> A -> Prop) (l : list A) :
  (forall x y, P x -> P y -> R x y -> R' x y) ->
  Forall P l -> StronglySorted R l -> StronglySorted R' l.
Proof.
  intros HR HP Hs. induction Hs as [|x l Hs IH Hx]; [constructor |].
  apply Forall_cons in HP as [Px Pl]. constructor; [now apply IH |].
  rewrite List.Forall_forall in *. intros y Hy. apply HR; auto.
Qed.

(** C2: when every listed post has a valid date, the list [getAllPosts]
    returns is in non-increasing order of date; a post dated 2024-03-15 comes
    before one dated 2024-01-19, whichever way the directory lists them. *)
Theorem getAllPosts_sorted_by_date matter legacyParse :
  (forall (st : Store) (posts : list data),
     getAllPosts matter legacyParse st = Ok posts ->
     Forall (fun post => exists t, dated legacyParse post t) posts ->
     StronglySorted (newer_or_same legacyParse) posts) /\
  (forall (jan march cj cm : string) (dj dm : data) (bj bm : string),
     jan <> march ->
     JsString.test_mdx_opt jan = true -> JsString.test_mdx_opt march = true ->
     matter cj = inr (dj, bj) -> matter cm = inr (dm, bm) ->
     dj !! "date"%string = Some (VString "2024-01-19") ->
     dm !! "date"%string = Some (VString "2024-03-15") ->
     let sorted := [with_slug dm (JsString.replace_mdx_opt march);
                    with_slug dj (JsString.replace_mdx_opt jan)] in
     getAllPosts matter legacyParse [(jan, File cj); (march, File cm)] = Ok sorted /\
     getAllPosts matter legacyParse [(march, File cm); (jan, File cj)] = Ok sorted).
Proof.
  split.
  - intros st posts Hget Hdated.
    apply getAllPosts_inv in Hget as (loaded & _ & ->).
    set (key := fun post : data =>
                  match Date_getTime legacyParse (post !! "date"%string) with
                  | Some t => t
                  | None => 0
                  end).
    set (P := fun post : data => exists t, dated legacyParse post t) in *.
    assert (Hcmp : forall x y, P x -> P y ->
                     byDateDesc legacyParse x y = Some (key y - key x)).
    { intros x y [tx Hx] [ty Hy]. unfold byDateDesc, key, dated in *.
      now rewrite Hx, Hy. }
    apply (StronglySorted_on P (descending key)); [| exact Hdated |].
    + intros x y [tx Hx] [ty Hy] Hxy. exists tx, ty.
      unfold descending, key, dated in *. rewrite Hx, Hy in Hxy. auto.
    + apply (sort_desc _ key P Hcmp).
      eapply Permutation_Forall; [apply sort_perm | exact Hdated].
  - intros jan march cj cm dj dm bj bm Hne Hj Hm Hcj Hcm Hdj Hdm sorted.
    assert (Hjm : String.eqb jan march = false) by now apply String.eqb_neq.
    assert (Hmj : String.eqb march jan = false)
      by (apply String.eqb_neq; congruence).
    assert (Hcmp1 : byDateDesc legacyParse
                      (with_slug dj (JsString.replace_mdx_opt jan))
                      (with_slug dm (JsString.replace_mdx_opt march))
                    = Some (1710460800000 - 1705622400000)).
    { unfold byDateDesc. rewrite !date_with_slug, Hdj, Hdm. reflexivity. }
    assert (Hcmp2 : byDateDesc legacyParse
                      (with_slug dm (JsString.replace_mdx_opt march))
                      (with_slug dj (JsString.replace_mdx_opt jan))
                    = Some (1705622400000 - 1710460800000)).
    { unfold byDateDesc. rewrite !date_with_slug, Hdj, Hdm. reflexivity. }
    split.
    + rewrite (getAllPosts_loaded matter legacyParse _
                 [with_slug dj (JsString.replace_mdx_opt jan);
                  with_slug dm (JsString.replace_mdx_opt march)]).
      * simpl. unfold JsArray.SortCompare. now rewrite Hcmp1.
      * simpl. rewrite Hj, Hm. simpl.
        unfold loadSummary, call_matter, readFileSync. simpl.
        rewrite !String.eqb_refl, Hjm. simpl. now rewrite Hcj, Hcm.
    + rewrite (getAllPosts_loaded matter legacyParse _
                 [with_slug dm (JsString.replace_mdx_opt march);
                  with_slug dj (JsString.replace_mdx_opt jan)]).
      * simpl. unfold JsArray.SortCompare. now rewrite Hcmp2.
      * simpl. rewrite Hj, Hm. simpl.
        unfold loadSummary, call_matter, readFileSync. simpl.
        rewrite !String.eqb_refl, Hmj. simpl. now rewrite Hcj, Hcm.
Qed.

Lemma getAllPosts_sorted_by_date_witness :
  StronglySorted (newer_or_same Sample.legacyParse)
    [Sample.first_post; Sample.gradle_post] /\
  getAllPosts Sample.matter Sample.legacyParse Sample.store
    = Ok [Sample.first_post; Sample.gradle_post].
Proof.
  destruct (getAllPosts_sorted_by_date Sample.matter Sample.legacyParse)
    as [Hsorted Htwo].
  split.
  - apply (Hsorted Sample.store).
    + vm_compute. reflexivity.
    + repeat constructor; eexists; vm_compute; reflexivity.
  - apply (Htwo "gradle-plugin.mdx" "first-post.mdx" "gradle" "first"
             Sample.gradle_header Sample.first_header "# Gradle" "# First")%string;
      try reflexivity.
    discriminate.
Defined.

Lemma NoDup_map_on {A B : Type} (f : A -> B) (l : list A) :
  (forall x y, In x l -> In y l -> f x = f y -> x = y) ->
  List.NoDup l -> List.NoDup (map f l).
Proof.
  intros Hinj Hnd. induction Hnd as [|x l Hx Hnd IH]; simpl; constructor.
  - intros Hin. apply in_map_iff in Hin as (y & Hfy & Hy).
    apply Hx. rewrite (Hinj x y); simpl; auto.
  - apply IH. intros a b Ha Hb. apply Hinj; simpl; auto.
Qed.

Lemma loaded_Forall2 matter (st : Store) (names : list string) (loaded : list data) :
  map (loadSummary matter st) names = map Ok loaded ->
  Forall2 (fun n post => loadSummary matter st n = Ok post) names loaded.
Proof.
  revert loaded. induction names as [|n names IH]; intros [|d loaded] H;
    try discriminate; [constructor |].
  simpl in H. injection H as Hn H. constructor; [exact Hn | now apply IH].
Qed.

Lemma all_loaded matter (st : Store) (names : list string) :
  Forall (fun n => exists post, loadSummary matter st n = Ok post) names ->
  exists loaded, map (loadSummary matter st) names = map Ok loaded.
Proof.
  induction 1 as [|n names [post Hn] _ [loaded IH]].
  - now exists [].
  - exists (post :: loaded). simpl. now rewrite Hn, IH.
Qed.



(** C4, as stated, fails: [a.md] and [a.mdx] are two names and one slug. *)
Lemma slugs_collide_md_mdx :
  ~ (forall matter legacyParse (st : Store) (posts : list data),
       List.NoDup (readdirSync st) ->
       getAllPosts matter legacyParse st = Ok posts ->
       List.NoDup (map slug_of posts)).
Proof.
  intros H.
  specialize (H Sample.matter Sample.legacyParse Sample.twins
                (JsArray.sort (byDateDesc Sample.legacyParse)
                   [with_slug Sample.first_header "a";
                    with_slug Sample.gradle_header "a"])).
  assert (Hnd : List.NoDup (readdirSync Sample.twins)).
  { repeat constructor; simpl; intros Hin; decompose [or] Hin;
      discriminate || assumption. }
  specialize (H Hnd eq_refl).
  vm_compute in H. inversion H as [|x l Hx _]. apply Hx. now left.
Qed.

(** C4, amended: the slugs of a listing are pairwise distinct when the names
    of the directory are and no post is there under both extensions. *)
Theorem slugs_unique matter legacyParse (st : Store) (posts : list data) :
  List.NoDup (readdirSync st) ->
  (forall s, ~ (In (s +:+ ".md") (readdirSync st) /\
                In (s +:+ ".mdx") (readdirSync st))) ->
  getAllPosts matter legacyParse st = Ok posts ->
  List.NoDup (map slug_of posts).
Proof.
  intros Hnd Hext Hget.
  eapply Permutation_NoDup;
    [symmetry; apply (getAllPosts_slugs _ _ _ _ Hget) |].
  apply NoDup_map_on; [| now apply List.NoDup_filter].
  intros x y Hx Hy Hxy.
  apply filter_In in Hx as [Hx Tx]. apply filter_In in Hy as [Hy Ty].
  injection Hxy as Hxy.
  destruct (test_mdx_opt_inv x Tx) as [Ex | Ex];
    destruct (test_mdx_opt_inv y Ty) as [Ey | Ey];
    rewrite Ex, Ey, Hxy; try reflexivity; exfalso;
    apply (Hext (JsString.replace_mdx_opt y)).
  - split; [now rewrite <- Ey | now rewrite <- Hxy, <- Ex].
  - split; [now rewrite <- Hxy, <- Ex | now rewrite <- Ey].
Qed.

Lemma slugs_unique_witness :
  List.NoDup (map slug_of [Sample.first_post; Sample.gradle_post]).
Proof.
  apply (slugs_unique Sample.matter Sample.legacyParse Sample.store).
  - repeat constructor; simpl; intros Hin; decompose [or] Hin;
      discriminate || assumption.
  - intros s [Hmd Hmdx]. simpl in Hmd, Hmdx.
    destruct Hmd as [E | [E | []]]; symmetry in E.
    + apply (md_not_mdx s "gradle-plugin"). exact E.
    + apply (md_not_mdx s "first-post"). exact E.
  - vm_compute. reflexivity.
Defined.

(** C5, as stated, fails: when an unreadable file is listed before the
    malformed one, the listing fails with the error of the read, [EACCES],
    and not with the parse error. *)
Lemma read_error_precedes_parse_error :
  ~ (forall matter legacyParse (st : Store) (name content reason : string),
       List.NoDup (readdirSync st) ->
       In (name, File content) st -> JsString.test_mdx_opt name = true ->
       matter content = inl reason ->
       exists r, getAllPosts matter legacyParse st = Throw (YAMLException r)).
Proof.
  intros H.
  destruct (H Sample.matter Sample.legacyParse Sample.unreadable_then_malformed
              "b.mdx"%string "broken"%string
              "bad indentation of a mapping entry"%string) as [r Hr].
  - repeat constructor; simpl; intros Hin; decompose [or] Hin;
      discriminate || assumption.
  - simpl. auto.
  - reflexivity.
  - reflexivity.
  - vm_compute in Hr. discriminate.
Qed.

(** Among files that can all be read, the first failure of a listing that
    holds a malformed file is a parse error. *)
Lemma listing_parse_error matter (st : Store) (names : list string)
    (name content reason : string) :
  (forall n, In n names -> exists c, readFileSync st n = Ok c) ->
  In name names -> readFileSync st name = Ok content ->
  matter content = inl reason ->
  exists r, Promise_all (map (loadSummary matter st) names)
            = Throw (YAMLException r).
Proof.
  intros Hread Hin Hr Hm. induction names as [|n names IH]; [destruct Hin |].
  simpl. destruct (Hread n (or_introl eq_refl)) as [c Hc].
  unfold loadSummary at 1, call_matter. rewrite Hc. simpl.
  destruct (matter c) as [r | [d body]] eqn:Hmc; simpl; [now exists r |].
  destruct IH as [r IH].
  - intros n' Hn'. apply Hread. now right.
  - destruct Hin as [-> | Hin]; [| exact Hin].
    rewrite Hr in Hc. injection Hc as <-. congruence.
  - exists r. now rewrite IH.
Qed.

(** C5, amended: a listed file whose header does not parse makes
    [getAllPosts] fail as a whole, with no partial list; when every listed
    file can be read the failure is a parse error, and it is the parse error
    of that file when every file listed before it loads. *)
Theorem getAllPosts_aborts_on_malformed matter legacyParse (st : Store)
    (name content reason : string) :
  List.NoDup (readdirSync st) ->
  In (name, File content) st -> JsString.test_mdx_opt name = true ->
  matter content = inl reason ->
  (exists e, getAllPosts matter legacyParse st = Throw e) /\
  ((forall n, In n (List.filter JsString.test_mdx_opt (readdirSync st)) ->
              exists c, readFileSync st n = Ok c) ->
   exists r, getAllPosts matter legacyParse st = Throw (YAMLException r)) /\
  (forall before after,
     List.filter JsString.test_mdx_opt (readdirSync st) = before ++ name :: after ->
     Forall (fun n => exists post, loadSummary matter st n = Ok post) before ->
     getAllPosts matter legacyParse st = Throw (YAMLException reason)).
Proof.
  intros Hnd Hin Htest Hm.
  pose proof (readFileSync_file _ _ _ Hnd Hin) as Hr.
  pose proof (loadSummary_malformed matter _ _ _ _ Hr Hm) as Hload.
  assert (Hlisted : In name (List.filter JsString.test_mdx_opt (readdirSync st))).
  { apply filter_In. split; [| exact Htest].
    change (In (fst (name, File content)) (map fst st)). now apply in_map. }
  split; [| split].
  - assert (Hthrow : In (Throw (YAMLException reason))
                       (map (loadSummary matter st)
                          (List.filter JsString.test_mdx_opt (readdirSync st)))).
    { rewrite <- Hload. now apply in_map. }
    apply Promise_all_throws in Hthrow as [e He].
    exists e. unfold getAllPosts. now rewrite He.
  - intros Hread.
    destruct (listing_parse_error matter st _ name content reason
                Hread Hlisted Hr Hm) as [r Hp].
    exists r. unfold getAllPosts. now rewrite Hp.
  - intros before after Hsplit Hbefore.
    apply all_loaded in Hbefore as [loaded Hloaded].
    unfold getAllPosts. rewrite Hsplit, map_app. simpl.
    now rewrite Hloaded, Hload, Promise_all_first_throw.
Qed.

Lemma getAllPosts_aborts_on_malformed_witness :
  (exists e, getAllPosts Sample.matter Sample.legacyParse Sample.malformed_second
             = Throw e) /\
  (exists r, getAllPosts Sample.matter Sample.legacyParse Sample.malformed_second
             = Throw (YAMLException r)) /\
  getAllPosts Sample.matter Sample.legacyParse Sample.malformed_second
    = Throw (YAMLException "bad indentation of a mapping entry").
Proof.
  destruct (getAllPosts_aborts_on_malformed Sample.matter Sample.legacyParse
              Sample.malformed_second "b.mdx" "broken"
              "bad indentation of a mapping entry") as (Hall & Hparse & Hfirst).
  - repeat constructor; simpl; intros Hin; decompose [or] Hin;
      discriminate || assumption.
  - simpl. auto.
  - reflexivity.
  - reflexivity.
  - split; [exact Hall | split].
    + apply Hparse. intros n Hn. simpl in Hn.
      destruct Hn as [<- | [<- | []]]; eexists; reflexivity.
    + apply (Hfirst ["first-post.mdx"%string] []); [reflexivity |].
      repeat constructor. eexists. vm_compute. reflexivity.
Defined.





End LoaderClaims.

(** ** Claims about the search filter *)

Section SearchClaims.
Import JsString Home.

(** [handleSearch] replaces the displayed list by [filtered] and leaves
    the loaded posts alone. *)
Lemma handleSearch_state (st : State) (query : string) :
  filteredPosts (handleSearch st query) = filtered (posts st) query /\
  posts (handleSearch st query) = posts st /\
  isLoading (handleSearch st query) = isLoading st.
Proof. repeat split. Qed.

Lemma matches_spec (searchTerm : string) (post : PostMetadata) :
  matches searchTerm post = true <->
  substring_of searchTerm (toLowerCase (title post)) \/
  substring_of searchTerm (toLowerCase (description post)) \/
  exists tag, In tag (tags post) /\ substring_of searchTerm (toLowerCase tag).
Proof.
  unfold matches, JsArray.some, substring_of.
  rewrite !orb_true_iff, !includes_spec, existsb_exists.
  setoid_rewrite includes_spec. tauto.
Qed.

Lemma matches_empty (post : PostMetadata) : matches "" post = true.
Proof. unfold matches. now rewrite includes_empty. Qed.

Lemma filter_all {A : Type} (f : A -> bool) (l : list A) :
  (forall x, f x = true) -> List.filter f l = l.
Proof.
  intros Hf. induction l as [|x l IH]; simpl; [reflexivity |].
  now rewrite Hf, IH.
Qed.

Lemma filter_twice {A : Type} (f : A -> bool) (l : list A) :
  List.filter f (List.filter f l) = List.filter f l.
Proof.
  induction l as [|x l IH]; simpl; [reflexivity |].
  destruct (f x) eqn:E; simpl; [now rewrite E, IH | exact IH].
Qed.

(** C6: a post is kept exactly when the lowercased query occurs in its
    lowercased title, in its lowercased description or in one of its
    lowercased tags; a post tagged [coding] and [learning] is kept for the
    query [LEARN]. *)
Theorem filtered_spec :
  (forall (ps : list PostMetadata) (query : string) (post : PostMetadata),
     In post (filtered ps query) <->
     In post ps /\
     (substring_of (toLowerCase query) (toLowerCase (title post)) \/
      substring_of (toLowerCase query) (toLowerCase (description post)) \/
      exists tag, In tag (tags post) /\
                  substring_of (toLowerCase query) (toLowerCase tag))) /\
  (forall (ps : list PostMetadata) (post : PostMetadata),
     In post ps -> tags post = ["coding"; "learning"]%string ->
     In post (filtered ps "LEARN")).
Proof.
  split.
  - intros ps query post. unfold filtered.
    now rewrite filter_In, matches_spec.
  - intros ps post Hin Htags. unfold filtered. apply filter_In.
    split; [exact Hin |]. unfold matches. rewrite Htags.
    change (JsArray.some _ _) with true. now rewrite !orb_true_r.
Qed.

Lemma filtered_spec_witness :
  In Sample.first_summary
     (filtered [Sample.gradle_summary; Sample.first_summary] "LEARN").
Proof.
  apply (proj2 filtered_spec [Sample.gradle_summary; Sample.first_summary]
           Sample.first_summary).
  - simpl. auto.
  - reflexivity.
Defined.

(** C7: the empty query keeps every post, in the order of the input. *)
Theorem filtered_empty_query (ps : list PostMetadata) : filtered ps "" = ps.
Proof. unfold filtered. simpl. apply filter_all, matches_empty. Qed.

(** C8: filtering the filtered list by the same query changes nothing. *)
Theorem filtered_idempotent (ps : list PostMetadata) (query : string) :
  filtered (filtered ps query) query = filtered ps query.
Proof. unfold filtered. apply filter_twice. Qed.

(** C9: the case of the query does not matter: a query and its lowercase
    form select the same posts, [CODING] and [coding] among them. *)
Theorem filtered_case_insensitive :
  (forall (ps : list PostMetadata) (query : string),
     filtered ps query = filtered ps (toLowerCase query)) /\
  (forall ps : list PostMetadata, filtered ps "CODING" = filtered ps "coding").
Proof.
  split.
  - intros ps query. unfold filtered. now rewrite toLowerCase_idem.
  - intros ps. reflexivity.
Qed.

End SearchClaims.

(** ** The code on the sample content *)

Example listing_of_sample :
  Mdx.getAllPosts Sample.matter Sample.legacyParse Sample.store
  = Mdx.Ok [Sample.first_post; Sample.gradle_post].
Proof. vm_compute. reflexivity. Qed.

Example static_params_of_sample :
  Mdx.generateStaticParams Sample.matter Sample.legacyParse Sample.store
  = Mdx.Ok [Some (Mdx.VString "first-post"); Some (Mdx.VString "gradle-plugin")].
Proof. vm_compute. reflexivity. Qed.

Example post_of_sample :
  Mdx.getPostBySlug Sample.matter string Sample.serialize Sample.store "first-post"
  = Mdx.Ok ("# First"%string, Sample.first_post).
Proof. vm_compute. reflexivity. Qed.

Example directory_named_like_a_post :
  Mdx.getPostBySlug Sample.matter string Sample.serialize
    [("drafts.mdx"%string, Mdx.Dir)] "drafts"
  = Mdx.Throw (Mdx.FsError Mdx.EISDIR "drafts.mdx").
Proof. reflexivity. Qed.

Example doubled_extension :
  JsString.replace_mdx (JsString.replace_mdx_opt "a.mdx.mdx") = "a"%string.
Proof. reflexivity. Qed.

Example dates_of_sample :
  JsDate.parseIsoDate "2024-01-19" = Some 1705622400000 /\
  JsDate.parseIsoDate "2024-03-15" = Some 1710460800000 /\
  JsDate.parseIsoDate "2023-02-29" = None.
Proof. repeat split. Qed.

Example search_learn :
  Home.filtered [Sample.gradle_summary; Sample.first_summary] "LEARN"
  = [Sample.first_summary].
Proof. reflexivity. Qed.

Example search_plugin :
  Home.filtered [Sample.gradle_summary; Sample.first_summary] "Plugin"
  = [Sample.gradle_summary].
Proof. reflexivity. Qed.

Example search_nothing :
  Home.filtered [Sample.gradle_summary; Sample.first_summary] "rust" = [].
Proof. reflexivity. Qed.

(* ===================================================================== *)
(** * Further properties of the loader *)
(* ===================================================================== *)

Section LoaderMore.
Import Mdx.

Lemma lookup_entry_posts_only (name : string) (st : Store) :
  JsString.test_mdx_opt name = true ->
  lookup_entry name (List.filter (fun e => JsString.test_mdx_opt (fst e)) st)
  = lookup_entry name st.
Proof.
  intros Hname. induction st as [|[n e] st IH]; simpl; [reflexivity |].
  destruct (JsString.test_mdx_opt n) eqn:Hn; simpl.
  - now rewrite IH.
  - destruct (String.eqb_spec n name) as [-> | _]; [congruence | exact IH].
Qed.

Lemma readdirSync_posts_only (st : Store) :
  List.filter JsString.test_mdx_opt
    (readdirSync (List.filter (fun e => JsString.test_mdx_opt (fst e)) st))
  = List.filter JsString.test_mdx_opt (readdirSync st).
Proof.
  induction st as [|[n e] st IH]; simpl; [reflexivity |].
  destruct (JsString.test_mdx_opt n) eqn:Hn; simpl; rewrite ?Hn, IH; reflexivity.
Qed.

(** Only the entries named [*.md] or [*.mdx] count: whatever else the
    directory holds (a subdirectory, an unreadable or malformed file) is
    never read and changes nothing; a directory without such a name gives
    the empty list. *)
Theorem getAllPosts_ignores_other_entries matter legacyParse (st : Store) :
  getAllPosts matter legacyParse st
  = getAllPosts matter legacyParse
      (List.filter (fun e => JsString.test_mdx_opt (fst e)) st) /\
  ((forall n, In n (readdirSync st) -> JsString.test_mdx_opt n = false) ->
   getAllPosts matter legacyParse st = Ok []).
Proof.
  split.
  - unfold getAllPosts. rewrite readdirSync_posts_only.
    f_equal. f_equal. apply map_ext_in. intros n Hn.
    apply filter_In in Hn as [_ Hn].
    unfold loadSummary, readFileSync. now rewrite lookup_entry_posts_only.
  - intros Hnone. unfold getAllPosts.
    replace (List.filter JsString.test_mdx_opt (readdirSync st)) with (@nil string);
      [reflexivity |].
    symmetry. induction (readdirSync st) as [|n names IH]; simpl; [reflexivity |].
    rewrite (Hnone n (or_introl eq_refl)). apply IH.
    intros n' Hn'. apply Hnone. now right.
Qed.

Lemma getAllPosts_ignores_other_entries_witness :
  getAllPosts Sample.matter Sample.legacyParse Sample.store_with_others
  = Ok [Sample.first_post; Sample.gradle_post] /\
  getAllPosts Sample.matter Sample.legacyParse
    [("README.txt"%string, File "broken"); ("assets"%string, Dir)] = Ok [].
Proof.
  split.
  - rewrite (proj1 (getAllPosts_ignores_other_entries
                      Sample.matter Sample.legacyParse Sample.store_with_others)).
    vm_compute. reflexivity.
  - apply (proj2 (getAllPosts_ignores_other_entries Sample.matter Sample.legacyParse
                    [("README.txt"%string, File "broken"); ("assets"%string, Dir)])).
    intros n Hn. simpl in Hn. destruct Hn as [<- | [<- | []]]; reflexivity.
Defined.

(** In a directory that can be listed, the listing succeeds exactly when
    every file named [*.md] or [*.mdx] can be read and has a header that
    parses. *)
Lemma getAllPosts_succeeds_iff matter legacyParse (st : Store) :
  (exists posts, getAllPosts matter legacyParse st = Ok posts) <->
  Forall (fun n => exists content d body,
                     readFileSync st n = Ok content /\
                     matter content = inr (d, body))
         (List.filter JsString.test_mdx_opt (readdirSync st)).
Proof.
  split.
  - intros [posts H]. apply getAllPosts_inv in H as (loaded & Hl & _).
    apply loaded_Forall2 in Hl.
    induction Hl as [|n post names loaded Hn _ IH]; constructor; [| exact IH].
    apply loadSummary_inv in Hn as (content & d & body & Hr & Hm & _).
    now exists content, d, body.
  - intros H.
    destruct (all_loaded matter st
                (List.filter JsString.test_mdx_opt (readdirSync st))) as [loaded Hl].
    + eapply List.Forall_impl; [| exact H].
      intros n (content & d & body & Hr & Hm).
      eexists. now apply (loadSummary_file matter st n content d body).
    + eexists. apply getAllPosts_loaded. exact Hl.
Qed.

(** The listing succeeds exactly when the posts directory can be listed and
    every file in it named [*.md] or [*.mdx] can be read and has a header
    that parses; the body of a post plays no role.  When the directory
    cannot be listed, the error of [readdirSync] is the error of the
    listing. *)
Theorem listing_succeeds_iff matter legacyParse (p : PostsPath.t) :
  ((exists posts, PostsPath.getAllPosts matter legacyParse p = Ok posts) <->
   exists st,
     p = PostsPath.Listable st /\
     Forall (fun n => exists content d body,
                        readFileSync st n = Ok content /\
                        matter content = inr (d, body))
            (List.filter JsString.test_mdx_opt (readdirSync st))) /\
  (forall e, PostsPath.readdirSync p = Throw e ->
             PostsPath.getAllPosts matter legacyParse p = Throw e).
Proof.
  split.
  - destruct p as [code | st]; simpl.
    + split; [intros [posts H]; discriminate | intros (st & H & _); discriminate].
    + rewrite getAllPosts_succeeds_iff. split.
      * intros H. now exists st.
      * intros (st' & Hst & H). now injection Hst as ->.
  - intros e. destruct p as [code | st]; simpl;
      [intros H; injection H as ->; reflexivity | discriminate].
Qed.

Lemma listing_succeeds_iff_witness :
  PostsPath.getAllPosts Sample.matter Sample.legacyParse (PostsPath.Unlistable ENOENT)
    = Throw (FsError ENOENT "") /\
  exists posts,
    PostsPath.getAllPosts Sample.matter Sample.legacyParse
      (PostsPath.Listable Sample.store) = Ok posts.
Proof.
  split.
  - apply (proj2 (listing_succeeds_iff Sample.matter Sample.legacyParse
                    (PostsPath.Unlistable ENOENT))).
    reflexivity.
  - apply (proj1 (listing_succeeds_iff Sample.matter Sample.legacyParse
                    (PostsPath.Listable Sample.store))).
    exists Sample.store. split; [reflexivity |].
    repeat constructor; eexists; eexists; eexists; split; reflexivity.
Defined.

(** Elements of one class that never compare greater than each other keep
    their order through the sort. *)
Lemma sort_stable {A : Type} (comparefn : A -> A -> number) (c : A -> bool)
    (l : list A) :
  (forall x y, c x = true -> c y = true -> JsArray.SortCompare comparefn x y <= 0) ->
  List.filter c (JsArray.sort comparefn l) = List.filter c l.
Proof.
  intros Hc.
  assert (Hins : forall x l', List.filter c (JsArray.insert comparefn x l')
                              = List.filter c (x :: l')).
  { intros x l'. induction l' as [|y l' IH]; [reflexivity |].
    cbn [JsArray.insert].
    destruct (Z.leb_spec (JsArray.SortCompare comparefn x y) 0) as [_ | Hgt];
      [reflexivity |].
    cbn [List.filter] in *. rewrite IH.
    destruct (c x) eqn:Hx, (c y) eqn:Hy; try reflexivity.
    specialize (Hc x y Hx Hy). lia. }
  induction l as [|x l IH]; [reflexivity |].
  cbn [JsArray.sort]. rewrite Hins. cbn [List.filter]. now rewrite IH.
Qed.

(** Posts of the same date come out in the order in which the directory
    lists their files (all dates being valid, the case in which the
    language fixes the result of the sort). *)
Theorem getAllPosts_same_date_in_directory_order matter legacyParse
    (st : Store) (posts : list data) :
  getAllPosts matter legacyParse st = Ok posts ->
  Forall (fun post => exists t, dated legacyParse post t) posts ->
  exists loaded,
    Forall2 (fun n post => loadSummary matter st n = Ok post)
            (List.filter JsString.test_mdx_opt (readdirSync st)) loaded /\
    forall t, List.filter (has_time legacyParse t) posts
              = List.filter (has_time legacyParse t) loaded.
Proof.
  intros Hget _. apply getAllPosts_inv in Hget as (loaded & Hl & ->).
  exists loaded. split; [now apply loaded_Forall2 |].
  intros t. apply sort_stable. intros x y Hx Hy.
  unfold JsArray.SortCompare, byDateDesc, has_time in *.
  destruct (Date_getTime legacyParse (x !! "date"%string)) as [tx |];
    [| discriminate].
  destruct (Date_getTime legacyParse (y !! "date"%string)) as [ty |];
    [| discriminate].
  apply Z.eqb_eq in Hx, Hy. lia.
Qed.

Lemma getAllPosts_same_date_in_directory_order_witness :
  let st : Store := [("x.mdx"%string, File "first"); ("y.mdx"%string, File "first")] in
  exists loaded,
    Forall2 (fun n post => loadSummary Sample.matter st n = Ok post)
            (List.filter JsString.test_mdx_opt (readdirSync st)) loaded /\
    forall t, List.filter (has_time Sample.legacyParse t)
                [with_slug Sample.first_header "x"; with_slug Sample.first_header "y"]
              = List.filter (has_time Sample.legacyParse t) loaded.
Proof.
  apply (getAllPosts_same_date_in_directory_order
           Sample.matter Sample.legacyParse
           [("x.mdx"%string, File "first"); ("y.mdx"%string, File "first")]).
  - vm_compute. reflexivity.
  - repeat constructor; eexists; vm_compute; reflexivity.
Defined.

(** A slug may be given with or without the extension: [s.mdx] and [s] get
    the same answer, when [s] does not itself end in [.mdx]. *)
Theorem getPostBySlug_extension_optional matter MdxSource serialize
    (st : Store) (s : string) :
  JsString.endsWith s ".mdx" = false ->
  getPostBySlug matter MdxSource serialize st (s +:+ ".mdx")
  = getPostBySlug matter MdxSource serialize st s.
Proof.
  intros Hs. unfold getPostBySlug.
  rewrite replace_mdx_append.
  assert (Hreal : JsString.replace_mdx s = s) by now apply dropSuffix_id.
  now rewrite Hreal.
Qed.

Lemma getPostBySlug_extension_optional_witness :
  getPostBySlug Sample.matter string Sample.serialize Sample.store "first-post.mdx"
  = getPostBySlug Sample.matter string Sample.serialize Sample.store "first-post".
Proof.
  apply (getPostBySlug_extension_optional Sample.matter string Sample.serialize
           Sample.store "first-post").
  reflexivity.
Defined.

(** Every key of the header other than [slug] reaches the metadata with
    the value the header gives it, and a key the header lacks stays absent:
    in [getPostBySlug] and in each post of [getAllPosts]. *)
Theorem header_keys_pass_through matter MdxSource serialize legacyParse
    (st : Store) :
  (forall slug src md,
     getPostBySlug matter MdxSource serialize st slug = Ok (src, md) ->
     exists content d body,
       readFileSync st (JsString.replace_mdx slug +:+ ".mdx") = Ok content /\
       matter content = inr (d, body) /\
       forall k : string, k <> "slug"%string -> md !! k = d !! k) /\
  (forall posts post,
     getAllPosts matter legacyParse st = Ok posts -> In post posts ->
     exists n content d body,
       In n (readdirSync st) /\ readFileSync st n = Ok content /\
       matter content = inr (d, body) /\
       forall k : string, k <> "slug"%string -> post !! k = d !! k).
Proof.
  split.
  - intros slug src md H.
    apply getPostBySlug_inv in H as (content & d & body & Hr & Hm & _ & ->).
    exists content, d, body. repeat split; [exact Hr | exact Hm |].
    intros k Hk. unfold with_slug. by apply lookup_insert_ne.
  - intros posts post H Hin.
    apply getAllPosts_inv in H as (loaded & Hl & ->).
    apply (Permutation_in _ (sort_perm _ loaded)) in Hin.
    apply loaded_Forall2 in Hl.
    induction Hl as [|n p names loaded' Hn _ IH]; [destruct Hin |].
    destruct Hin as [-> | Hin].
    + apply loadSummary_inv in Hn as (content & d & body & Hr & Hm & ->).
      exists n, content, d, body. repeat split; [| exact Hr | exact Hm |].
      * unfold readFileSync in Hr.
        destruct (lookup_entry n st) eqn:E; [| discriminate].
        destruct (in_dec string_dec n (readdirSync st)) as [Hi | Hni]; [exact Hi |].
        apply lookup_entry_None in Hni. congruence.
      * intros k Hk. unfold with_slug. by apply lookup_insert_ne.
    + now apply IH.
Qed.

Lemma header_keys_pass_through_witness :
  exists content d body,
    readFileSync Sample.store "first-post.mdx" = Ok content /\
    Sample.matter content = inr (d, body) /\
    forall k : string, k <> "slug"%string -> Sample.first_post !! k = d !! k.
Proof.
  apply (proj1 (header_keys_pass_through Sample.matter string Sample.serialize
                  Sample.legacyParse Sample.store)
           "first-post"%string "# First"%string Sample.first_post).
  vm_compute. reflexivity.
Defined.

Lemma dropSuffix_fixed (s x : string) :
  x <> ""%string -> JsString.dropSuffix s x = s -> JsString.endsWith s x = false.
Proof.
  intros Hx Hs. destruct (JsString.endsWith s x) eqn:E; [| reflexivity].
  apply endsWith_inv in E as [p ->]. rewrite dropSuffix_append in Hs.
  apply (f_equal String.length) in Hs. rewrite length_append in Hs.
  destruct x; [congruence | simpl in Hs; lia].
Qed.

(** The path [getPostBySlug] reads for the slug of a listed name is that
    name exactly when the name ends in [.mdx] and its slug does not: never
    for a [.md] file, never for a doubled extension. *)
Theorem listed_slug_resolves_iff (name : string) :
  JsString.test_mdx_opt name = true ->
  (JsString.replace_mdx (JsString.replace_mdx_opt name) +:+ ".mdx" = name
   <-> plain_mdx name).
Proof.
  intros Htest. unfold plain_mdx. split.
  - intros Hpath.
    assert (Hmdx : JsString.endsWith name ".mdx" = true)
      by (rewrite <- Hpath; apply endsWith_append).
    split; [exact Hmdx |].
    apply endsWith_inv in Hmdx as [s ->].
    rewrite replace_mdx_opt_mdx in *. apply append_inv_r in Hpath.
    now apply dropSuffix_fixed.
  - intros [Hmdx Hslug]. apply endsWith_inv in Hmdx as [s ->].
    rewrite replace_mdx_opt_mdx in *.
    unfold JsString.replace_mdx. now rewrite dropSuffix_id.
Qed.

Lemma listed_slug_resolves_iff_witness :
  (JsString.replace_mdx (JsString.replace_mdx_opt "first-post.mdx") +:+ ".mdx"
   = "first-post.mdx"%string <-> plain_mdx "first-post.mdx") /\
  ~ plain_mdx "notes.md" /\ ~ plain_mdx "a.mdx.mdx".
Proof.
  split; [| split].
  - apply (listed_slug_resolves_iff "first-post.mdx"). reflexivity.
  - intros [H _]. discriminate.
  - intros [_ H]. discriminate.
Defined.

Lemma Forall2_In_r {A B : Type} (R : A -> B -> Prop) (l : list A) (l' : list B)
    (y : B) :
  Forall2 R l l' -> In y l' -> exists x, In x l /\ R x y.
Proof.
  induction 1 as [|x y' l l' Hxy _ IH]; intros Hin; [destruct Hin |].
  destruct Hin as [-> | Hin].
  - exists x. split; [now left | exact Hxy].
  - destruct (IH Hin) as (x' & Hx' & HR). exists x'. split; [now right | exact HR].
Qed.

(** In a directory whose posts are all named [s.mdx], with [s] not ending
    in [.mdx], every post of the listing is reached by its slug:
    [getPostBySlug] reads the same file and returns the very metadata of the
    listing, unless the body of the post fails to compile. *)
Theorem listed_posts_resolve matter MdxSource serialize legacyParse
    (st : Store) (posts : list data) (post : data) :
  (forall n, In n (readdirSync st) -> JsString.test_mdx_opt n = true -> plain_mdx n) ->
  getAllPosts matter legacyParse st = Ok posts -> In post posts ->
  exists s,
    slug_of post = Some (VString s) /\
    match getPostBySlug matter MdxSource serialize st s with
    | Ok (_, md) => md = post
    | Throw e => exists reason, e = MdxCompileError reason
    end.
Proof.
  intros Hplain Hget Hin.
  apply getAllPosts_inv in Hget as (loaded & Hl & ->).
  apply (Permutation_in _ (sort_perm _ loaded)) in Hin.
  apply loaded_Forall2 in Hl.
  destruct (Forall2_In_r _ _ _ _ Hl Hin) as (n & Hn & Hload).
  apply filter_In in Hn as [Hn Htest].
  destruct (Hplain n Hn Htest) as [Hmdx Hslug].
  apply loadSummary_inv in Hload as (content & d & body & Hr & Hm & ->).
  apply endsWith_inv in Hmdx as [s ->]. rewrite replace_mdx_opt_mdx in *.
  exists s. split; [apply slug_of_with_slug |].
  assert (Hreal : JsString.replace_mdx s = s) by now apply dropSuffix_id.
  unfold getPostBySlug, call_matter, call_serialize.
  rewrite Hreal, Hr. simpl. rewrite Hm. simpl.
  destruct (serialize body d) as [reason | src]; simpl; [now exists reason | reflexivity].
Qed.

Lemma listed_posts_resolve_witness :
  exists s,
    slug_of Sample.gradle_post = Some (VString s) /\
    match getPostBySlug Sample.matter string Sample.serialize Sample.store s with
    | Ok (_, md) => md = Sample.gradle_post
    | Throw e => exists reason, e = MdxCompileError reason
    end.
Proof.
  apply (listed_posts_resolve Sample.matter string Sample.serialize
           Sample.legacyParse Sample.store
           [Sample.first_post; Sample.gradle_post]).
  - intros n Hn _. simpl in Hn.
    destruct Hn as [<- | [<- | []]]; split; reflexivity.
  - vm_compute. reflexivity.
  - simpl. auto.
Defined.

(** [generateStaticParams] gives one [slug] per file named [*.md] or
    [*.mdx], each the name without its extension, and fails exactly as
    [getAllPosts] does. *)
Theorem generateStaticParams_slugs matter legacyParse (st : Store) :
  (forall params,
     generateStaticParams matter legacyParse st = Ok params ->
     Permutation params
       (map listed_slug (List.filter JsString.test_mdx_opt (readdirSync st)))) /\
  (forall e,
     generateStaticParams matter legacyParse st = Throw e <->
     getAllPosts matter legacyParse st = Throw e).
Proof.
  unfold generateStaticParams. split.
  - intros params H.
    destruct (getAllPosts matter legacyParse st) as [posts | e] eqn:Hget;
      simpl in H; [| discriminate].
    injection H as <-. now apply (getAllPosts_slugs matter legacyParse st).
  - intros e. destruct (getAllPosts matter legacyParse st) as [posts | e'];
      simpl; split; intros H; discriminate || (injection H as ->; reflexivity).
Qed.

Lemma generateStaticParams_slugs_witness :
  Permutation [Some (VString "first-post"); Some (VString "gradle-plugin")]
    (map listed_slug
       (List.filter JsString.test_mdx_opt (readdirSync Sample.store_with_others))).
Proof.
  apply (proj1 (generateStaticParams_slugs Sample.matter Sample.legacyParse
                  Sample.store_with_others)).
  vm_compute. reflexivity.
Defined.

End LoaderMore.

(* ===================================================================== *)
(** * The post page *)
(* ===================================================================== *)

Section PostPageFacts.
Import Mdx PostPage.

Lemma tags_with_slug (d : data) (s : string) :
  with_slug d s !! "tags"%string = d !! "tags"%string.
Proof. unfold with_slug. by apply lookup_insert_ne. Qed.

Lemma title_with_slug (d : data) (s : string) :
  with_slug d s !! "title"%string = d !! "title"%string.
Proof. unfold with_slug. by apply lookup_insert_ne. Qed.

Lemma tag_chips_inv (tags : option value) (spans : list string) :
  tag_chips tags = inr spans ->
  exists items, tags = Some (VArray items) /\
                spans = map (fun tag => "#" +:+ tag) items.
Proof.
  destruct tags as [[| | | | | items] |]; simpl; try discriminate.
  intros H. injection H as <-. now exists items.
Qed.

(** A page that renders shows the header of the file [<realSlug>.mdx]: its
    title, its date, one [#tag] per tag in the order of the header, and the
    compiled body of that file. *)
Theorem Post_renders_header matter MdxSource serialize (st : Store)
    (slug : string) (article : Article MdxSource) :
  Post matter MdxSource serialize st slug = inr article ->
  exists content d body items,
    readFileSync st (JsString.replace_mdx slug +:+ ".mdx") = Ok content /\
    matter content = inr (d, body) /\
    serialize body d = inr (PostPage.body article) /\
    heading article = d !! "title"%string /\
    posted article = d !! "date"%string /\
    d !! "tags"%string = Some (VArray items) /\
    chips article = map (fun tag => "#" +:+ tag) items.
Proof.
  unfold Post.
  destruct (getPostBySlug matter MdxSource serialize st slug)
    as [[src md] | e] eqn:Hget; [| discriminate].
  destruct (tag_chips (md !! "tags"%string)) as [f | spans] eqn:Htags;
    [discriminate |].
  intros H. injection H as <-. simpl.
  apply getPostBySlug_inv in Hget as (content & d & body & Hr & Hm & Hs & ->).
  apply tag_chips_inv in Htags as (items & Hitems & ->).
  rewrite tags_with_slug in Hitems.
  exists content, d, body, items.
  rewrite title_with_slug, date_with_slug. repeat split; assumption.
Qed.

Lemma Post_renders_header_witness :
  exists content d body items,
    readFileSync Sample.store "first-post.mdx" = Ok content /\
    Sample.matter content = inr (d, body) /\
    Sample.serialize body d = inr "# First"%string /\
    Some (VString "My First Learning Experience") = d !! "title"%string /\
    Some (VString "2024-03-15") = d !! "date"%string /\
    d !! "tags"%string = Some (VArray items) /\
    ["#coding"; "#learning"]%string = map (fun tag => "#" +:+ tag) items.
Proof.
  apply (Post_renders_header Sample.matter string Sample.serialize Sample.store
           "first-post"
           {| heading := Some (VString "My First Learning Experience");
              posted := Some (VString "2024-03-15");
              chips := ["#coding"; "#learning"]%string;
              body := "# First"%string |}).
  vm_compute. reflexivity.
Defined.

Lemma Post_without_tags matter MdxSource serialize (st : Store)
    (slug content : string) (d : data) (body : string) (src : MdxSource) :
  readFileSync st (JsString.replace_mdx slug +:+ ".mdx") = Ok content ->
  matter content = inr (d, body) -> serialize body d = inr src ->
  (forall items, d !! "tags"%string <> Some (VArray items)) ->
  Post matter MdxSource serialize st slug = inl TypeError.
Proof.
  intros Hr Hm Hs Hno. unfold Post.
  rewrite (getPostBySlug_file matter MdxSource serialize st slug
             content d body src Hr Hm Hs).
  rewrite tags_with_slug.
  destruct (d !! "tags"%string) as [[| | | | | items] |] eqn:E; try reflexivity.
  now destruct (Hno items).
Qed.

(** The page throws a [TypeError] exactly when the post loads and its
    header has no list under [tags]; what the loader throws reaches the
    caller as it is. *)
Theorem Post_failures matter MdxSource serialize (st : Store) (slug : string) :
  (Post matter MdxSource serialize st slug = inl TypeError <->
   exists content d body src,
     readFileSync st (JsString.replace_mdx slug +:+ ".mdx") = Ok content /\
     matter content = inr (d, body) /\ serialize body d = inr src /\
     forall items, d !! "tags"%string <> Some (VArray items)) /\
  (forall e,
     Post matter MdxSource serialize st slug = inl (Thrown e) <->
     getPostBySlug matter MdxSource serialize st slug = Throw e).
Proof.
  split.
  - split.
    + unfold Post.
      destruct (getPostBySlug matter MdxSource serialize st slug)
        as [[src md] | e] eqn:Hget; [| discriminate].
      apply getPostBySlug_inv in Hget as (content & d & body & Hr & Hm & Hs & ->).
      rewrite tags_with_slug.
      destruct (tag_chips (d !! "tags"%string)) as [f | spans] eqn:Htags;
        [| discriminate].
      intros _. exists content, d, body, src. repeat split; try assumption.
      intros items Hitems. rewrite Hitems in Htags. discriminate.
    + intros (content & d & body & src & Hr & Hm & Hs & Hno).
      now apply (Post_without_tags matter MdxSource serialize st slug
                   content d body src).
  - intros e. unfold Post.
    destruct (getPostBySlug matter MdxSource serialize st slug) as [[src md] | e'].
    + destruct (md !! "tags"%string) as [[| | | | | items] |]; simpl;
        split; discriminate.
    + split; intros H; injection H as ->; reflexivity.
Qed.

(** A post without a list of tags is listed, and its page cannot render. *)
Theorem untagged_post_listed_but_page_fails matter MdxSource serialize
    (st : Store) (s content : string) (d : data) (body : string) (src : MdxSource) :
  JsString.endsWith s ".mdx" = false ->
  readFileSync st (s +:+ ".mdx") = Ok content ->
  matter content = inr (d, body) -> serialize body d = inr src ->
  (forall items, d !! "tags"%string <> Some (VArray items)) ->
  loadSummary matter st (s +:+ ".mdx") = Ok (with_slug d s) /\
  Post matter MdxSource serialize st s = inl TypeError.
Proof.
  intros Hs Hr Hm Hser Hno. split.
  - rewrite (loadSummary_file matter st _ content d body Hr Hm).
    now rewrite replace_mdx_opt_mdx.
  - assert (Hreal : JsString.replace_mdx s = s) by now apply dropSuffix_id.
    apply (Post_without_tags matter MdxSource serialize st s content d body src);
      try assumption.
    now rewrite Hreal.
Qed.

Lemma untagged_post_listed_but_page_fails_witness :
  loadSummary Sample.matter_untagged Sample.store_untagged "untagged.mdx"
    = Ok (with_slug Sample.untagged_header "untagged") /\
  Post Sample.matter_untagged string Sample.serialize Sample.store_untagged "untagged"
    = inl TypeError.
Proof.
  apply (untagged_post_listed_but_page_fails Sample.matter_untagged string
           Sample.serialize Sample.store_untagged "untagged" "untagged"
           Sample.untagged_header "# Untagged" "# Untagged"); try reflexivity.
  intros items H. vm_compute in H. discriminate.
Defined.

End PostPageFacts.

(* ===================================================================== *)
(** * The home page *)
(* ===================================================================== *)

Section HomeFacts.
Import JsString Home HomeView.
#[local] Arguments String.append !_ _ / : simpl nomatch.

Lemma searches_keep_posts (st : State) (queries : list string) :
  posts (searches st queries) = posts st /\
  isLoading (searches st queries) = isLoading st.
Proof.
  unfold searches. revert st.
  induction queries as [|q queries IH]; intros st; simpl; [split; reflexivity |].
  destruct (IH (handleSearch st q)) as [-> ->]. split; reflexivity.
Qed.

Lemma searches_snoc (st : State) (queries : list string) (query : string) :
  filteredPosts (searches st (queries ++ [query])) = filtered (posts st) query.
Proof.
  unfold searches. rewrite fold_left_app. simpl.
  fold (searches st queries). now rewrite (proj1 (searches_keep_posts st queries)).
Qed.

(** Each search starts again from all the loaded posts: after any number of
    searches the displayed list is the filter of the loaded posts by the last
    query alone, and the loaded posts are untouched. *)
Theorem searches_last_query (st : State) (queries : list string) (query : string) :
  filteredPosts (searches st (queries ++ [query])) = filtered (posts st) query /\
  posts (searches st (queries ++ [query])) = posts st.
Proof.
  split; [apply searches_snoc | apply searches_keep_posts].
Qed.

Lemma substring_of_trans (u t s : string) :
  substring_of u t -> substring_of t s -> substring_of u s.
Proof.
  intros (p1 & q1 & ->) (p2 & q2 & ->).
  exists (p2 +:+ p1), (q1 +:+ q2). now rewrite !append_assoc.
Qed.

Lemma matches_narrows (t s : string) (post : PostMetadata) :
  substring_of t s -> matches s post = true -> matches t post = true.
Proof.
  intros Hts. rewrite !matches_spec.
  intros [H | [H | (tag & Hin & H)]].
  - left. now apply (substring_of_trans t s).
  - right. left. now apply (substring_of_trans t s).
  - right. right. exists tag. split; [exact Hin |].
    now apply (substring_of_trans t s).
Qed.

Lemma filter_refines {A : Type} (f g : A -> bool) (l : list A) :
  (forall x, g x = true -> f x = true) ->
  List.filter g (List.filter f l) = List.filter g l.
Proof.
  intros Hgf. induction l as [|x l IH]; simpl; [reflexivity |].
  destruct (f x) eqn:Hf; simpl.
  - now rewrite IH.
  - destruct (g x) eqn:Hg; [| exact IH].
    apply Hgf in Hg. congruence.
Qed.

(** Typing more narrows the result: when the search term of a query (the
    query in lower case) occurs inside the search term of a longer one, the
    posts found for the longer one are found for the shorter one too, and
    filtering the shorter query's result by the longer query gives the longer
    query's result. *)
Theorem longer_query_narrows (ps : list PostMetadata) (short long : string) :
  substring_of (toLowerCase short) (toLowerCase long) ->
  filtered (filtered ps short) long = filtered ps long /\
  (forall post, In post (filtered ps long) -> In post (filtered ps short)).
Proof.
  intros Hsub.
  assert (Hm : forall post, matches (toLowerCase long) post = true ->
                            matches (toLowerCase short) post = true)
    by (intros post; now apply matches_narrows).
  split.
  - unfold filtered. now apply filter_refines.
  - intros post. unfold filtered. rewrite !filter_In. intros [Hin H]. auto.
Qed.

Lemma longer_query_narrows_witness :
  filtered (filtered [Sample.gradle_summary; Sample.first_summary] "Learn") "LEARNING"
  = filtered [Sample.gradle_summary; Sample.first_summary] "LEARNING" /\
  (forall post,
     In post (filtered [Sample.gradle_summary; Sample.first_summary] "LEARNING") ->
     In post (filtered [Sample.gradle_summary; Sample.first_summary] "Learn")).
Proof.
  apply (longer_query_narrows [Sample.gradle_summary; Sample.first_summary]
           "Learn" "LEARNING").
  now exists ""%string, "ing"%string.
Defined.

Lemma filter_sublist {A : Type} (f : A -> bool) (l : list A) :
  sublist (List.filter f l) l.
Proof.
  induction l as [|x l IH]; simpl; [constructor |].
  destruct (f x); now constructor.
Qed.

Lemma sublist_NoDup_map {A B : Type} (f : A -> B) (l1 l2 : list A) :
  sublist l1 l2 -> List.NoDup (map f l2) -> List.NoDup (map f l1).
Proof.
  induction 1 as [|x l1 l2 Hsub IH | x l1 l2 Hsub IH]; simpl; intros Hnd.
  - constructor.
  - apply NoDup_cons_iff in Hnd as [Hx Hnd]. constructor; [| now apply IH].
    intros Hin. apply Hx. apply in_map_iff in Hin as (y & Hy & Hin).
    apply in_map_iff. exists y. split; [exact Hy |].
    apply list_elem_of_In. eapply elem_of_sublist; [| exact Hsub].
    now apply list_elem_of_In.
  - apply NoDup_cons_iff in Hnd as [_ Hnd]. now apply IH.
Qed.

(** A search selects: the result holds posts of the loaded list only, each
    at most as often and in the same order; so slugs that are distinct in the
    loaded list, which the cards use as keys, are distinct in every result. *)
Theorem filtered_selects (ps : list PostMetadata) (query : string) :
  sublist (filtered ps query) ps /\
  (List.NoDup (map slug ps) -> List.NoDup (map slug (filtered ps query))).
Proof.
  split; [apply filter_sublist |].
  apply sublist_NoDup_map, filter_sublist.
Qed.

Lemma filtered_selects_witness :
  List.NoDup (map slug (filtered [Sample.gradle_summary; Sample.first_summary] "a")).
Proof.
  apply (proj2 (filtered_selects [Sample.gradle_summary; Sample.first_summary] "a")).
  repeat constructor; simpl; intros H; decompose [or] H; discriminate || assumption.
Defined.

Lemma render_loaded (all shown : list PostMetadata) :
  render {| posts := all; filteredPosts := shown; isLoading := false |}
  = match shown with
    | [] => NoPostsFound
    | _ :: _ => PostList (map card shown)
    end.
Proof. now destruct shown. Qed.

(** What the page shows.  When [getAllPosts] rejects, the page stays on
    [Loading...] whatever happens next.  Once the posts are loaded it never
    shows [Loading...] again: it shows one card per post found by the last
    query (all posts before the first search), and the no-posts message when
    there is none, also for a blog without posts. *)
Theorem render_views (st : State) :
  (forall e queries,
     render (searches (fetchPosts initial (Mdx.Throw e)) queries) = Loading) /\
  (forall all,
     render (fetchPosts st (Mdx.Ok all))
     = match all with
       | [] => NoPostsFound
       | _ :: _ => PostList (map card all)
       end) /\
  (forall all queries query,
     render (searches (fetchPosts st (Mdx.Ok all)) (queries ++ [query]))
     = match filtered all query with
       | [] => NoPostsFound
       | _ :: _ => PostList (map card (filtered all query))
       end).
Proof.
  split; [| split].
  - intros e queries. unfold render.
    now rewrite (proj2 (searches_keep_posts _ queries)).
  - intros all. apply render_loaded.
  - intros all queries query. unfold render.
    rewrite (proj2 (searches_keep_posts _ (queries ++ [query]))).
    rewrite searches_snoc. simpl.
    now destruct (filtered all query).
Qed.

End HomeFacts.

(* ===================================================================== *)
(** * Dates *)
(* ===================================================================== *)

Section DateFacts.
Import JsDate.

Lemma DayFromYear_next (y1 y2 : Z) :
  y1 < y2 ->
  DayFromYear y1 + 365 + (if InLeapYear y1 then 1 else 0) <= DayFromYear y2.
Proof.
  intros Hlt. unfold DayFromYear, InLeapYear.
  destruct (Z.eqb_spec (y1 mod 4) 0) as [H4 | H4];
    destruct (Z.eqb_spec (y1 mod 100) 0) as [H100 | H100];
    destruct (Z.eqb_spec (y1 mod 400) 0) as [H400 | H400]; simpl;
    Z.div_mod_to_equations; lia.
Qed.

Lemma daysBefore_table (y : Z) (leap := if InLeapYear y then 1 else 0) :
  daysBefore y 0 = 0 /\ daysBefore y 1 = 31 /\ daysBefore y 2 = 59 + leap /\
  daysBefore y 3 = 90 + leap /\ daysBefore y 4 = 120 + leap /\
  daysBefore y 5 = 151 + leap /\ daysBefore y 6 = 181 + leap /\
  daysBefore y 7 = 212 + leap /\ daysBefore y 8 = 243 + leap /\
  daysBefore y 9 = 273 + leap /\ daysBefore y 10 = 304 + leap /\
  daysBefore y 11 = 334 + leap.
Proof.
  subst leap. cbv [daysBefore DaysInMonth].
  generalize (InLeapYear y). intros [|]; vm_compute; repeat split; reflexivity.
Qed.

Lemma month_cases (m : Z) :
  1 <= m <= 12 ->
  m = 1 \/ m = 2 \/ m = 3 \/ m = 4 \/ m = 5 \/ m = 6 \/
  m = 7 \/ m = 8 \/ m = 9 \/ m = 10 \/ m = 11 \/ m = 12.
Proof. lia. Qed.

(** The day of the year of a calendar day, counted from 0, with the bounds
    of the month it is in. *)
Lemma dayOfYear_in_month (y m d : Z) :
  calendar_day y m d ->
  exists next,
    daysBefore y (Z.to_nat (m - 1)) + (d - 1) < next /\
    0 <= daysBefore y (Z.to_nat (m - 1)) /\
    next <= 365 + (if InLeapYear y then 1 else 0) /\
    (forall m' d', calendar_day y m' d' -> m < m' ->
                   next <= daysBefore y (Z.to_nat (m' - 1))).
Proof.
  intros [Hm Hd].
  destruct (daysBefore_table y)
    as (T0 & T1 & T2 & T3 & T4 & T5 & T6 & T7 & T8 & T9 & T10 & T11).
  assert (Hnext : forall m' d', calendar_day y m' d' -> m < m' ->
            daysBefore y (Z.to_nat (m - 1)) + DaysInMonth y m
            <= daysBefore y (Z.to_nat (m' - 1))).
  { intros m' d' [Hm' _] Hlt.
    destruct (month_cases m Hm) as [-> | [-> | [-> | [-> | [-> | [-> |
      [-> | [-> | [-> | [-> | [-> | ->]]]]]]]]]]];
    destruct (month_cases m' Hm') as [-> | [-> | [-> | [-> | [-> | [-> |
      [-> | [-> | [-> | [-> | [-> | ->]]]]]]]]]]];
      try (exfalso; lia);
      repeat match goal with
             | |- context [Z.to_nat ?e] =>
                 let n := eval vm_compute in (Z.to_nat e) in
                 change (Z.to_nat e) with n
             end;
      rewrite ?T0, ?T1, ?T2, ?T3, ?T4, ?T5, ?T6, ?T7, ?T8, ?T9, ?T10, ?T11;
      cbn [DaysInMonth Z.eqb Pos.eqb orb]; destruct (InLeapYear y); lia. }
  exists (daysBefore y (Z.to_nat (m - 1)) + DaysInMonth y m).
  split; [lia |]. split; [| split; [| exact Hnext]].
  - destruct (month_cases m Hm) as [-> | [-> | [-> | [-> | [-> | [-> |
      [-> | [-> | [-> | [-> | [-> | ->]]]]]]]]]]];
      match goal with
      | |- context [Z.to_nat ?e] =>
          let n := eval vm_compute in (Z.to_nat e) in
          change (Z.to_nat e) with n
      end;
      rewrite ?T0, ?T1, ?T2, ?T3, ?T4, ?T5, ?T6, ?T7, ?T8, ?T9, ?T10, ?T11;
      destruct (InLeapYear y); lia.
  - destruct (month_cases m Hm) as [-> | [-> | [-> | [-> | [-> | [-> |
      [-> | [-> | [-> | [-> | [-> | ->]]]]]]]]]]];
      match goal with
      | |- context [Z.to_nat ?e] =>
          let n := eval vm_compute in (Z.to_nat e) in
          change (Z.to_nat e) with n
      end;
      rewrite ?T0, ?T1, ?T2, ?T3, ?T4, ?T5, ?T6, ?T7, ?T8, ?T9, ?T10, ?T11;
      cbn [DaysInMonth Z.eqb Pos.eqb orb]; destruct (InLeapYear y); lia.
Qed.

Lemma MakeDate_lt (y1 m1 d1 y2 m2 d2 : Z) :
  calendar_day y1 m1 d1 -> calendar_day y2 m2 d2 ->
  day_before y1 m1 d1 y2 m2 d2 -> MakeDate y1 m1 d1 < MakeDate y2 m2 d2.
Proof.
  intros C1 C2 Hlt. unfold MakeDate, msPerDay.
  destruct (dayOfYear_in_month _ _ _ C1) as (n1 & Hd1 & Hf1 & Hn1 & Hnext1).
  destruct (dayOfYear_in_month _ _ _ C2) as (n2 & Hd2 & Hf2 & Hn2 & _).
  destruct C1 as [_ Hday1]. destruct C2 as [Hm2 Hday2].
  destruct Hlt as [Hy | [-> [Hm | [-> Hd]]]].
  - pose proof (DayFromYear_next _ _ Hy). destruct (InLeapYear y1); lia.
  - specialize (Hnext1 m2 d2 (conj Hm2 Hday2) Hm). lia.
  - lia.
Qed.

Lemma digit_range (a : ascii) (x : Z) : digit a = Some x -> 0 <= x <= 9.
Proof.
  unfold digit.
  destruct (48 <=? nat_of_ascii a)%nat eqn:H1; [| discriminate].
  destruct (nat_of_ascii a <=? 57)%nat eqn:H2; [| discriminate]. simpl.
  intros H. injection H as <-.
  apply Nat.leb_le in H1, H2. lia.
Qed.

Lemma digit_compare (a b : ascii) (x y : Z) :
  digit a = Some x -> digit b = Some y -> Ascii.compare a b = (x ?= y).
Proof.
  unfold digit, Ascii.compare, nat_of_ascii.
  destruct (48 <=? N.to_nat (N_of_ascii a))%nat eqn:Ha; [| discriminate].
  destruct (N.to_nat (N_of_ascii a) <=? 57)%nat; [| discriminate].
  destruct (48 <=? N.to_nat (N_of_ascii b))%nat eqn:Hb; [| discriminate].
  destruct (N.to_nat (N_of_ascii b) <=? 57)%nat; [| discriminate]. simpl.
  intros Hx Hy. injection Hx as <-. injection Hy as <-.
  apply Nat.leb_le in Ha, Hb.
  destruct (N.compare_spec (N_of_ascii a) (N_of_ascii b)) as [E | E | E];
    symmetry; [apply Z.compare_eq_iff | apply Z.compare_lt_iff | apply Z.compare_gt_iff];
    lia.
Qed.

Lemma parseIsoDate_inv (s : string) (t : Z) :
  parseIsoDate s = Some t ->
  exists (a1 a2 a3 a4 b1 b2 c1 c2 : ascii) (x1 x2 x3 x4 m1 m2 d1 d2 : Z),
    s = String a1 (String a2 (String a3 (String a4 (String "-"
        (String b1 (String b2 (String "-" (String c1 (String c2 "")))))))))
    /\ digit a1 = Some x1 /\ digit a2 = Some x2 /\ digit a3 = Some x3
    /\ digit a4 = Some x4 /\ digit b1 = Some m1 /\ digit b2 = Some m2
    /\ digit c1 = Some d1 /\ digit c2 = Some d2
    /\ calendar_day (100 * (10 * x1 + x2) + (10 * x3 + x4)) (10 * m1 + m2) (10 * d1 + d2)
    /\ t = MakeDate (100 * (10 * x1 + x2) + (10 * x3 + x4)) (10 * m1 + m2) (10 * d1 + d2).
Proof.
  destruct s as [|a1 [|a2 [|a3 [|a4 [|h1 [|b1 [|b2 [|h2 [|c1 [|c2 [|? ?]]]]]]]]]]];
    try discriminate;
    destruct h1 as [[] [] [] [] [] [] [] []]; try discriminate;
    destruct h2 as [[] [] [] [] [] [] [] []]; try discriminate.
  unfold parseIsoDate, digits4, digits2.
  destruct (digit a1) as [x1 |] eqn:E1; [| discriminate].
  destruct (digit a2) as [x2 |] eqn:E2; [| discriminate].
  destruct (digit a3) as [x3 |] eqn:E3; [| discriminate].
  destruct (digit a4) as [x4 |] eqn:E4; [| discriminate].
  destruct (digit b1) as [m1 |] eqn:E5; [| discriminate].
  destruct (digit b2) as [m2 |] eqn:E6; [| discriminate].
  destruct (digit c1) as [d1 |] eqn:E7; [| discriminate].
  destruct (digit c2) as [d2 |] eqn:E8; [| discriminate].
  destruct (_ && _) eqn:Hvalid; [| discriminate].
  intros H. injection H as <-.
  exists a1, a2, a3, a4, b1, b2, c1, c2, x1, x2, x3, x4, m1, m2, d1, d2.
  apply andb_prop in Hvalid as [Hvalid Hd2].
  apply andb_prop in Hvalid as [Hvalid Hd1].
  apply andb_prop in Hvalid as [Hm1 Hm2].
  apply Z.leb_le in Hd2, Hd1, Hm1, Hm2.
  unfold calendar_day. repeat split; try reflexivity; assumption.
Qed.

(** Between date-only strings, a later day is a larger time value and a
    larger string, and equal time values are equal strings. *)
Lemma iso_dates_in_calendar_order (s1 s2 : string) (t1 t2 : Z) :
  parseIsoDate s1 = Some t1 -> parseIsoDate s2 = Some t2 ->
  (t1 < t2 <-> String.compare s1 s2 = Lt) /\ (t1 = t2 <-> s1 = s2).
Proof.
  intros H1 H2.
  apply parseIsoDate_inv in H1
    as (a1 & a2 & a3 & a4 & b1 & b2 & c1 & c2 & x1 & x2 & x3 & x4 & m1 & m2 & d1 & d2
        & -> & A1 & A2 & A3 & A4 & B1 & B2 & C1 & C2 & Hcal1 & ->).
  apply parseIsoDate_inv in H2
    as (a1' & a2' & a3' & a4' & b1' & b2' & c1' & c2'
        & x1' & x2' & x3' & x4' & m1' & m2' & d1' & d2'
        & -> & A1' & A2' & A3' & A4' & B1' & B2' & C1' & C2' & Hcal2 & ->).
  pose proof (digit_range _ _ A1). pose proof (digit_range _ _ A2).
  pose proof (digit_range _ _ A3). pose proof (digit_range _ _ A4).
  pose proof (digit_range _ _ B1). pose proof (digit_range _ _ B2).
  pose proof (digit_range _ _ C1). pose proof (digit_range _ _ C2).
  pose proof (digit_range _ _ A1'). pose proof (digit_range _ _ A2').
  pose proof (digit_range _ _ A3'). pose proof (digit_range _ _ A4').
  pose proof (digit_range _ _ B1'). pose proof (digit_range _ _ B2').
  pose proof (digit_range _ _ C1'). pose proof (digit_range _ _ C2').
  set (Y := 100 * (10 * x1 + x2) + (10 * x3 + x4)) in *.
  set (M := 10 * m1 + m2) in *. set (D := 10 * d1 + d2) in *.
  set (Y' := 100 * (10 * x1' + x2') + (10 * x3' + x4')) in *.
  set (M' := 10 * m1' + m2') in *. set (D' := 10 * d1' + d2') in *.
  assert (Hlt : day_before Y M D Y' M' D' -> MakeDate Y M D < MakeDate Y' M' D')
    by now apply MakeDate_lt.
  assert (Hgt : day_before Y' M' D' Y M D -> MakeDate Y' M' D' < MakeDate Y M D)
    by now apply MakeDate_lt.
  assert (Heq : Y = Y' -> M = M' -> D = D' -> MakeDate Y M D = MakeDate Y' M' D')
    by (intros -> -> ->; reflexivity).
  cbn [String.compare].
  rewrite (digit_compare _ _ _ _ A1 A1'), (digit_compare _ _ _ _ A2 A2'),
    (digit_compare _ _ _ _ A3 A3'), (digit_compare _ _ _ _ A4 A4'),
    (digit_compare _ _ _ _ B1 B1'), (digit_compare _ _ _ _ B2 B2'),
    (digit_compare _ _ _ _ C1 C1'), (digit_compare _ _ _ _ C2 C2').
  change (Ascii.compare "-" "-") with Eq. cbv iota.
  unfold day_before in *. subst Y M D Y' M' D'.
  clear Hcal1 Hcal2.
  remember (MakeDate (100 * (10 * x1 + x2) + (10 * x3 + x4))
              (10 * m1 + m2) (10 * d1 + d2)) as T eqn:ET.
  remember (MakeDate (100 * (10 * x1' + x2') + (10 * x3' + x4'))
              (10 * m1' + m2') (10 * d1' + d2')) as T' eqn:ET'.
  split.
  - clear ET ET'.
    repeat match goal with
           | |- _ <-> match ?a ?= ?b with Eq => _ | Lt => _ | Gt => _ end = Lt =>
               destruct (Z.compare_spec a b); cbv iota
           end;
      (split; [intros Ht; try reflexivity; exfalso; lia
              | intros Hc; try discriminate Hc; lia]).
  - split.
    + intros Ht.
      assert (Hdigits : x1 = x1' /\ x2 = x2' /\ x3 = x3' /\ x4 = x4' /\
                        m1 = m1' /\ m2 = m2' /\ d1 = d1' /\ d2 = d2') by lia.
      destruct Hdigits as (-> & -> & -> & -> & -> & -> & -> & ->).
      repeat f_equal; apply Ascii.compare_eq_iff;
        erewrite digit_compare by eassumption; apply Z.compare_refl.
    + intros Hs. injection Hs as -> -> -> -> -> -> -> ->.
      rewrite A1 in A1'. rewrite A2 in A2'. rewrite A3 in A3'. rewrite A4 in A4'.
      rewrite B1 in B1'. rewrite B2 in B2'. rewrite C1 in C1'. rewrite C2 in C2'.
      injection A1' as ->. injection A2' as ->. injection A3' as ->.
      injection A4' as ->. injection B1' as ->. injection B2' as ->.
      injection C1' as ->. injection C2' as ->. congruence.
Qed.

(** When every post carries a date-only string [YYYY-MM-DD] that names a
    calendar day, the listing is in descending order of these strings,
    whatever the engine does with other date formats. *)
Theorem getAllPosts_iso_dates_descending matter legacyParse
    (st : Mdx.Store) (posts : list (gmap string Mdx.value)) :
  Mdx.getAllPosts matter legacyParse st = Mdx.Ok posts ->
  Forall (fun post => exists s t, post !! "date"%string = Some (Mdx.VString s) /\
                                  parseIsoDate s = Some t) posts ->
  StronglySorted
    (fun a b => exists sa sb,
                  a !! "date"%string = Some (Mdx.VString sa) /\
                  b !! "date"%string = Some (Mdx.VString sb) /\
                  String.compare sb sa <> Gt) posts.
Proof.
  intros Hget Hiso. apply getAllPosts_inv in Hget as (loaded & _ & ->).
  set (P := fun post : gmap string Mdx.value =>
              exists s t, post !! "date"%string = Some (Mdx.VString s) /\
                          parseIsoDate s = Some t) in *.
  set (key := fun post : gmap string Mdx.value =>
                match Mdx.Date_getTime legacyParse (post !! "date"%string) with
                | Some t => t
                | None => 0
                end).
  assert (Htime : forall (post : gmap string Mdx.value) s t,
             post !! "date"%string = Some (Mdx.VString s) ->
             parseIsoDate s = Some t ->
             Mdx.Date_getTime legacyParse (post !! "date"%string) = Some t).
  { intros post s t Hs Ht. rewrite Hs. simpl. unfold parse. now rewrite Ht. }
  assert (Hcmp : forall x y, P x -> P y ->
             Mdx.byDateDesc legacyParse x y = Some (key y - key x)).
  { intros x y (sx & tx & Hx & Htx) (sy & ty & Hy & Hty).
    unfold Mdx.byDateDesc, key.
    now rewrite (Htime x sx tx Hx Htx), (Htime y sy ty Hy Hty). }
  apply (StronglySorted_on P (descending key)); [| exact Hiso |].
  - intros x y (sx & tx & Hx & Htx) (sy & ty & Hy & Hty) Hxy.
    exists sx, sy. split; [exact Hx | split; [exact Hy |]].
    unfold descending, key in Hxy.
    rewrite (Htime x sx tx Hx Htx), (Htime y sy ty Hy Hty) in Hxy.
    intros Hgt. rewrite String.compare_antisym in Hgt.
    destruct (iso_dates_in_calendar_order sx sy tx ty Htx Hty) as [Hlt _].
    destruct (String.compare sx sy) eqn:E; try discriminate.
    assert (tx < ty) by now apply Hlt. lia.
  - apply (sort_desc _ key P Hcmp).
    eapply Permutation_Forall; [apply sort_perm | exact Hiso].
Qed.

Lemma getAllPosts_iso_dates_descending_witness :
  StronglySorted
    (fun a b => exists sa sb,
                  a !! "date"%string = Some (Mdx.VString sa) /\
                  b !! "date"%string = Some (Mdx.VString sb) /\
                  String.compare sb sa <> Gt)
    [Sample.first_post; Sample.gradle_post].
Proof.
  apply (getAllPosts_iso_dates_descending Sample.matter Sample.legacyParse
           Sample.store).
  - vm_compute. reflexivity.
  - repeat constructor.
    + exists "2024-03-15"%string, 1710460800000. split; vm_compute; reflexivity.
    + exists "2024-01-19"%string, 1705622400000. split; vm_compute; reflexivity.
Defined.

End DateFacts.
